(** * Radicale-DecSync storage plugin: a shallow embedding

    The development follows [radicale_storage_decsync/__init__.py]:

    - [PyStr]: the Python string operations the plugin uses
      (negative slicing, [strip], [split], [join]);
    - [PyDict]: Python dictionaries with string keys, kept in insertion
      order because [load_hrefs] iterates over [items()];
    - [HrefMappings]: the [CollectionHrefMappingsMixin] class;
    - [Bridge]: the [Collection] methods and the two listeners, over an
      interface for the Radicale base class and the parser;
    - [Lifecycle]: the class methods [discover] and [create_collection];
    - [Mem]: an in-memory instance of the interfaces, for concrete runs.

    Radicale's [storage.Collection], [vobject] and [libdecsync] are not part
    of the plugin; they enter as type-class interfaces.  A method of the
    plugin is a function from the state of the collection to a result that
    either returns or raises, and in both cases carries the state reached,
    as a Python object keeps what was done to it before an exception.

    [Replay] and [Shape] name what the later properties speak about: runs
    of listener calls and the blocks of a discovery run.  The modules from
    [PyStrFacts] on hold the properties. *)

From Stdlib Require Import String Ascii List Bool Arith ZArith Lia.
Import ListNotations.
Open Scope list_scope.
Open Scope string_scope.

(* ================================================================= *)
(** ** Python values and exceptions *)

(** The scalar JSON values carried by sync-log keys, sync-log values and
    collection metadata. *)
Inductive pyval : Type :=
| PNone
| PBool (b : bool)
| PInt (n : Z)
| PStr (s : string).

(** Python's [==] on these values.  [bool] is a subclass of [int], so
    [True == 1] and [False == 0] hold. *)
Definition py_eq (a b : pyval) : bool :=
  match a, b with
  | PNone, PNone => true
  | PBool x, PBool y => Bool.eqb x y
  | PBool x, PInt n | PInt n, PBool x => Z.eqb (if x then 1 else 0) n
  | PInt n, PInt m => Z.eqb n m
  | PStr s, PStr t => String.eqb s t
  | _, _ => false
  end.

(** [v is None]. *)
Definition is_None (v : pyval) : bool :=
  match v with PNone => true | _ => false end.

(** The exceptions that can leave the plugin.  [ExternalError] stands for
    whatever a collaborator (Radicale, vobject, the file system) raises. *)
Inductive exn : Type :=
| ValueError (msg : string)
| RuntimeError (msg : string)
| TypeError
| IndexError
| ExternalError (what : string).

(** [prefix + v] for a string literal [prefix]: concatenation with a
    non-string operand raises [TypeError]. *)
Definition str_plus (prefix : string) (v : pyval) : exn + string :=
  match v with
  | PStr s => inr (prefix ++ s)
  | _ => inl TypeError
  end.

(** What [raise ValueError(prefix + v)] raises: the [ValueError] when [v]
    is a string, the [TypeError] of the concatenation otherwise. *)
Definition value_error (prefix : string) (v : pyval) : exn :=
  match str_plus prefix v with
  | inl e => e
  | inr msg => ValueError msg
  end.

(* ================================================================= *)
(** ** Python string operations *)

Module PyStr.

(** [s[:-n]].  For [n = 0] Python reads the bound as [0], hence the empty
    string; for [n > len(s)] the bound is clamped to [0]. *)
Definition slice_to_neg (n : nat) (s : string) : string :=
  match n with
  | 0 => EmptyString
  | _ => substring 0 (String.length s - n) s
  end.

(** [s[n:]]. *)
Definition slice_from (n : nat) (s : string) : string :=
  substring n (String.length s - n) s.

Fixpoint lstrip (c : ascii) (s : string) : string :=
  match s with
  | EmptyString => EmptyString
  | String a s' => if Ascii.eqb a c then lstrip c s' else s
  end.

Fixpoint rstrip (c : ascii) (s : string) : string :=
  match s with
  | EmptyString => EmptyString
  | String a s' =>
      match rstrip c s' with
      | EmptyString => if Ascii.eqb a c then EmptyString else String a EmptyString
      | r => String a r
      end
  end.

(** [s.strip(c)] for a one-character argument. *)
Definition strip (c : ascii) (s : string) : string := rstrip c (lstrip c s).

(** [s.split(c)] for a one-character separator: never the empty list. *)
Fixpoint split (c : ascii) (s : string) : list string :=
  match s with
  | EmptyString => [EmptyString]
  | String a s' =>
      if Ascii.eqb a c then EmptyString :: split c s'
      else match split c s' with
           | [] => [String a EmptyString]
           | w :: ws => String a w :: ws
           end
  end.

(** [sep.join(parts)]. *)
Fixpoint join (sep : string) (parts : list string) : string :=
  match parts with
  | [] => EmptyString
  | [p] => p
  | p :: ps => p ++ sep ++ join sep ps
  end.

End PyStr.

(* ================================================================= *)
(** ** Python dictionaries with string keys *)

Module PyDict.

Section Dict.
Context {V : Type}.

(** Insertion-ordered, one binding per key. *)
Definition t : Type := list (string * V).

Definition empty : t := [].

(** [d.get(k)], [None] when absent. *)
Fixpoint get (d : t) (k : string) : option V :=
  match d with
  | [] => None
  | (k', v) :: d' => if String.eqb k k' then Some v else get d' k
  end.

(** [d.get(k, dflt)]. *)
Definition get_default (d : t) (k : string) (dflt : V) : V :=
  match get d k with Some v => v | None => dflt end.

(** [d[k] = v]: an existing key keeps its position, a new key goes last. *)
Fixpoint set (d : t) (k : string) (v : V) : t :=
  match d with
  | [] => [(k, v)]
  | (k', v') :: d' =>
      if String.eqb k k' then (k', v) :: d' else (k', v') :: set d' k v
  end.

(** [d.items()], in iteration order. *)
Definition items (d : t) : list (string * V) := d.

(** The dictionary a JSON decoder builds from the members of an object,
    read left to right (a repeated key keeps its last value). *)
Definition of_members (ms : list (string * V)) : t :=
  fold_left (fun d kv => set d (fst kv) (snd kv)) ms empty.

(** [del d[k]] for a key that may be absent. *)
Fixpoint remove (d : t) (k : string) : t :=
  match d with
  | [] => []
  | (k', v) :: d' => if String.eqb k k' then d' else (k', v) :: remove d' k
  end.

End Dict.

Arguments t : clear implicits.

End PyDict.

(* ================================================================= *)
(** ** [CollectionHrefMappingsMixin] *)

Module HrefMappings.

(** What [open(self._hrefs_path)] followed by [json.load] meets on disk.
    [Unreadable] covers every way into the bare [except] branch (no file,
    no JSON).  [JsonObject] is an object of strings, members in file order:
    the file is only ever written by [set_href], which dumps [_hrefs]. *)
Inductive hrefs_file : Type :=
| Unreadable
| JsonObject (members : list (string * string)).

(** The attributes the mixin keeps on [self], with the file behind
    [_hrefs_path] and the contents handed to [_atomic_write] since the
    tables were loaded (oldest first). *)
Record t : Type := mk {
  _suffix : string;
  _hrefs : PyDict.t string;
  _uids : PyDict.t string;
  on_disk : hrefs_file;
  writes : list (PyDict.t string)
}.

Definition suffix_of (sync_type : string) : string :=
  if String.eqb sync_type "contacts" then ".vcf" else ".ics".

(** The [try: json.load ... except: {}] block. *)
Definition json_load (f : hrefs_file) : PyDict.t string :=
  match f with
  | Unreadable => PyDict.empty
  | JsonObject members => PyDict.of_members members
  end.

(** [self._uids[href] = uid], the body of the loop of [load_hrefs]. *)
Definition invert_step (uids : PyDict.t string) (kv : string * string)
    : PyDict.t string :=
  PyDict.set uids (snd kv) (fst kv).

(** [for uid, href in self._hrefs.items(): self._uids[href] = uid] *)
Definition invert (hrefs : PyDict.t string) : PyDict.t string :=
  fold_left invert_step (PyDict.items hrefs) PyDict.empty.

Definition load_hrefs (sync_type : string) (f : hrefs_file) : t :=
  let hrefs := json_load f in
  {| _suffix := suffix_of sync_type;
     _hrefs := hrefs;
     _uids := invert hrefs;
     on_disk := f;
     writes := [] |}.

Definition get_href (m : t) (uid : string) : string :=
  PyDict.get_default (_hrefs m) uid (uid ++ _suffix m).

Definition set_href (uid href : string) (m : t) : t :=
  if String.eqb href (get_href m uid) then m
  else
    let hrefs := PyDict.set (_hrefs m) uid href in
    {| _suffix := _suffix m;
       _hrefs := hrefs;
       _uids := PyDict.set (_uids m) href uid;
       on_disk := JsonObject (PyDict.items hrefs);
       writes := (writes m ++ [hrefs])%list |}.

Definition get_uid (m : t) (href : string) : string :=
  PyDict.get_default (_uids m) href
    (PyStr.slice_to_neg (String.length (_suffix m)) href).

(** The states of the tables: loaded once, then updated by [set_href]. *)
Inductive reachable : t -> Prop :=
| reach_load (sync_type : string) (f : hrefs_file) :
    reachable (load_hrefs sync_type f)
| reach_set_href (m : t) (uid href : string) :
    reachable m -> reachable (set_href uid href m).

(** The invariant of the data model, as the specification words it: the
    two tables are inverse to each other on their stored entries. *)
Definition mutually_inverse (m : t) : Prop :=
  (forall uid href,
      PyDict.get (_hrefs m) uid = Some href ->
      PyDict.get (_uids m) href = Some uid) /\
  (forall href uid,
      PyDict.get (_uids m) href = Some uid ->
      PyDict.get (_hrefs m) uid = Some href).

(** No two uids share an href, no two hrefs share a uid. *)
Definition injective_both (m : t) : Prop :=
  (forall u1 u2 href,
      PyDict.get (_hrefs m) u1 = Some href ->
      PyDict.get (_hrefs m) u2 = Some href -> u1 = u2) /\
  (forall h1 h2 uid,
      PyDict.get (_uids m) h1 = Some uid ->
      PyDict.get (_uids m) h2 = Some uid -> h1 = h2).

(** What the code does keep: each stored href has some reverse entry and
    each stored uid has some forward entry. *)
Definition covered (m : t) : Prop :=
  (forall uid href,
      PyDict.get (_hrefs m) uid = Some href ->
      exists uid', PyDict.get (_uids m) href = Some uid') /\
  (forall href uid,
      PyDict.get (_uids m) href = Some uid ->
      exists href', PyDict.get (_hrefs m) uid = Some href').

End HrefMappings.

(* ================================================================= *)
(** ** The collaborators of one [Collection] object *)

(** What the plugin calls on [super()] (Radicale's [storage.Collection])
    and on [vobject].  A base operation may raise and may change the stored
    files either way. *)
Class BaseStorage : Type := {
  Store : Type;
  Item : Type;
  VObject : Type;
  (** [item.uid], [item.serialize()] *)
  item_uid : Item -> string;
  item_serialize : Item -> string;
  (** [self.get(href)], [None] when there is no such item *)
  base_get : string -> Store -> option Item;
  (** [super().upload(href, vobject_item)] *)
  base_upload : string -> VObject -> Store -> (exn + Item) * Store;
  (** [super().delete(href)] *)
  base_delete : option string -> Store -> (exn + unit) * Store;
  (** [self.get_meta()] *)
  base_get_meta : Store -> PyDict.t pyval;
  (** [super().set_meta_all(props)] *)
  base_set_meta_all : PyDict.t pyval -> Store -> (exn + unit) * Store;
  (** [vobject.readOne(value)] *)
  readOne : pyval -> exn + VObject;
  (** [storage.check_and_sanitize_item(item, uid=uid, tag=tag)], which
      edits the item in place *)
  check_and_sanitize_item : VObject -> string -> string -> exn + VObject
}.

(** The effects a method call leaves behind, in the order they happen. *)
Inductive storage_op : Type :=
| OpUpload (href : string)
| OpDelete (href : option string)
| OpSetMetaAll (props : PyDict.t pyval).

Inductive event : Type :=
| EvStorage (op : storage_op)
    (** a base-class mutation returned without raising *)
| EvSetEntry (path : list string) (key value : pyval)
    (** [self.decsync.set_entry(path, key, value)] *).

Definition is_set_entry (e : event) : bool :=
  match e with EvSetEntry _ _ _ => true | EvStorage _ => false end.

(** The entries appended to the sync log, oldest first. *)
Definition log_entries (tr : list event) : list event := filter is_set_entry tr.

(** "The append occurs strictly after the local mutation": among the events
    of one call, every [set_entry] has a storage mutation before it. *)
Definition append_follows_mutation (evs : list event) : Prop :=
  forall i path key value,
    nth_error evs i = Some (EvSetEntry path key value) ->
    exists j op, j < i /\ nth_error evs j = Some (EvStorage op).

(** The opposite order: every [set_entry] of the call comes before every
    storage mutation of the call. *)
Definition append_precedes_mutation (evs : list event) : Prop :=
  forall i j path key value op,
    nth_error evs i = Some (EvSetEntry path key value) ->
    nth_error evs j = Some (EvStorage op) ->
    i < j.

(** *** [repr] of a string

    A string is read one element per character, the elements being the
    code points below 256. *)

Definition single_quote : ascii := ascii_of_nat 39.
Definition double_quote : ascii := ascii_of_nat 34.
Definition backslash : ascii := ascii_of_nat 92.

Fixpoint contains (c : ascii) (s : string) : bool :=
  match s with
  | EmptyString => false
  | String a s' => (Ascii.eqb a c || contains c s')%bool
  end.

(** The quote [repr] puts around [s]: single, unless [s] holds a single
    quote and no double quote. *)
Definition repr_quote (s : string) : ascii :=
  if (contains single_quote s && negb (contains double_quote s))%bool
  then double_quote else single_quote.

Definition hex_digit (n : nat) : ascii :=
  nth n ["0"; "1"; "2"; "3"; "4"; "5"; "6"; "7";
         "8"; "9"; "a"; "b"; "c"; "d"; "e"; "f"]%char "0"%char.

(** [\xhh] *)
Definition hex_escape (n : nat) : string :=
  String backslash
    (String "x" (String (hex_digit (n / 16)) (String (hex_digit (n mod 16)) ""))).

(** One character inside the quotes: the quote and the backslash get a
    backslash, tab, newline and carriage return their letter, the other
    characters that are not printable their code. *)
Definition repr_char (quote c : ascii) : string :=
  let n := nat_of_ascii c in
  if (Ascii.eqb c quote || Ascii.eqb c backslash)%bool then
    String backslash (String c "")
  else if Nat.eqb n 9 then String backslash "t"
  else if Nat.eqb n 10 then String backslash "n"
  else if Nat.eqb n 13 then String backslash "r"
  else if (Nat.ltb n 32 || Nat.eqb n 127)%bool then hex_escape n
  else if Nat.ltb n 127 then String c ""
  else if (Nat.leb n 160 || Nat.eqb n 173)%bool then hex_escape n
  else String c "".

Fixpoint repr_body (quote : ascii) (s : string) : string :=
  match s with
  | EmptyString => EmptyString
  | String c s' => repr_char quote c ++ repr_body quote s'
  end.

(** [repr(s)] *)
Definition py_repr (s : string) : string :=
  let quote := repr_quote s in
  String quote (repr_body quote s ++ String quote "").

(** [str(path)] for a list of strings: the [repr] of each segment, between
    brackets. *)
Definition str_of_path (path : list string) : string :=
  "[" ++ PyStr.join ", " (map py_repr path) ++ "]".

Module Bridge.

Section Collection.
Context {B : BaseStorage}.

(** One [Collection] whose path has two attributes: the only kind that owns
    a [decsync] object, listeners and mapping tables.  [store] is what the
    base class keeps on disk, [trace] the storage mutations and sync-log
    appends made so far, oldest first.  The mapping file lies in the folder
    of the collection: [HrefMappings.on_disk] follows it as long as the
    folder is there and says nothing about it once the base class has
    removed the whole collection; what outlives that call are the tables
    in memory. *)
Record World : Type := mkWorld {
  sync_type : string;
  collection : string;
  store : Store;
  mappings : HrefMappings.t;
  trace : list event
}.

Definition with_store (st : Store) (w : World) : World :=
  mkWorld (sync_type w) (collection w) st (mappings w) (trace w).

Definition with_mappings (m : HrefMappings.t) (w : World) : World :=
  mkWorld (sync_type w) (collection w) (store w) m (trace w).

Definition emit (e : event) (w : World) : World :=
  mkWorld (sync_type w) (collection w) (store w) (mappings w)
          (trace w ++ [e])%list.

Definition emit_all (evs : list event) (w : World) : World :=
  mkWorld (sync_type w) (collection w) (store w) (mappings w)
          (trace w ++ evs)%list.

(** A method either returns or raises; the object keeps what was done to it
    before the exception. *)
Inductive result (A : Type) : Type :=
| Ok (a : A) (w : World)
| Raise (e : exn) (w : World).
Arguments Ok {A} a w.
Arguments Raise {A} e w.

Definition M (A : Type) : Type := World -> result A.

Definition ret {A : Type} (a : A) : M A := fun w => Ok a w.

Definition raise {A : Type} (e : exn) : M A := fun w => Raise e w.

Definition bind {A C : Type} (m : M A) (k : A -> M C) : M C :=
  fun w => match m w with
           | Ok a w' => k a w'
           | Raise e w' => Raise e w'
           end.

Definition final {A : Type} (r : result A) : World :=
  match r with Ok _ w => w | Raise _ w => w end.

(** The events a call added to the trace of [w]. *)
Definition new_events {A : Type} (w : World) (r : result A) : list event :=
  skipn (List.length (trace w)) (trace (final r)).

Notation "x <- m ;; k" := (bind m (fun x => k))
  (at level 61, m at next level, right associativity).
Notation "m ;;; k" := (bind m (fun _ => k))
  (at level 61, right associativity).

(** An exception raised by a pure helper. *)
Definition of_sum {A : Type} (r : exn + A) : M A :=
  match r with inl e => raise e | inr a => ret a end.

(** A call into the base class: the files change as the base says; a call
    that returns is recorded as a storage mutation. *)
Definition call_base {A : Type} (op : storage_op)
    (f : Store -> (exn + A) * Store) : M A :=
  fun w =>
    let r := f (store w) in
    match fst r with
    | inr a => Ok a (emit (EvStorage op) (with_store (snd r) w))
    | inl e => Raise e (with_store (snd r) w)
    end.

(** [self.decsync.set_entry(path, key, value)] *)
Definition set_entry (path : list string) (key value : pyval) : M unit :=
  fun w => Ok tt (emit (EvSetEntry path key value) w).

(** [self.get(href)] *)
Definition get (href : string) : M (option Item) :=
  fun w => Ok (base_get href (store w)) w.

(** [self.get_meta()] and [self.get_meta(key)] *)
Definition get_meta : M (PyDict.t pyval) :=
  fun w => Ok (base_get_meta (store w)) w.

Definition get_meta_key (key : string) : M pyval :=
  props <- get_meta ;;
  ret (PyDict.get_default props key PNone).

(** The mixin methods on [self]. *)
Definition get_href (uid : string) : M string :=
  fun w => Ok (HrefMappings.get_href (mappings w) uid) w.

Definition get_uid (href : string) : M string :=
  fun w => Ok (HrefMappings.get_uid (mappings w) href) w.

Definition set_href (uid href : string) : M unit :=
  fun w => Ok tt (with_mappings (HrefMappings.set_href uid href (mappings w)) w).

(** [Collection.upload] *)
Definition upload (href : string) (vobject_item : VObject)
    (update_decsync : bool) : M Item :=
  item <- call_base (OpUpload href) (base_upload href vobject_item) ;;
  (if update_decsync then
     set_href (item_uid item) href ;;;
     set_entry ["resources"; item_uid item] PNone (PStr (item_serialize item))
   else ret tt) ;;;
  ret item.

(** [Collection.delete] *)
Definition delete (href : option string) (update_decsync : bool) : M unit :=
  (if update_decsync then
     match href with
     | None => set_entry ["info"] (PStr "deleted") (PBool true)
     | Some h =>
         uid <- get_uid h ;;
         set_entry ["resources"; uid] PNone PNone
     end
   else ret tt) ;;;
  call_base (OpDelete href) (base_delete href).

(** The loop of [Collection.set_meta_all] over [props.items()]. *)
Fixpoint forward_meta (kvs : list (string * pyval)) : M unit :=
  match kvs with
  | [] => ret tt
  | (key, value) :: rest =>
      current <- get_meta_key key ;;
      (if py_eq current value then ret tt
       else if String.eqb key "D:displayname" then
         set_entry ["info"] (PStr "name") value
       else if String.eqb key "ICAL:calendar-color" then
         set_entry ["info"] (PStr "color") value
       else ret tt) ;;;
      forward_meta rest
  end.

(** [Collection.set_meta_all] *)
Definition set_meta_all (props : PyDict.t pyval) (update_decsync : bool)
    : M unit :=
  (if update_decsync then forward_meta (PyDict.items props) else ret tt) ;;;
  call_base (OpSetMetaAll props) (base_set_meta_all props).

(** [Collection._set_meta_key], as both listeners call it.  The dictionary
    is a value here; the source writes [props[key]] into the object
    [get_meta()] returned, which the base class may hand out again to the
    loop of [set_meta_all] when [update_decsync] is set. *)
Definition _set_meta_key (key : string) (value : pyval)
    (update_decsync : bool) : M unit :=
  props <- get_meta ;;
  set_meta_all (PyDict.set props key value) update_decsync.

(** [info_listener(path, datetime, key, value, extra)], [extra] being the
    collection the monad runs on. *)
Definition info_listener (path : list string) (datetime : string)
    (key value : pyval) : M unit :=
  if py_eq key (PStr "name") then
    _set_meta_key "D:displayname" value false
  else if py_eq key (PStr "deleted") then
    delete None false
  else if py_eq key (PStr "color") then
    _set_meta_key "ICAL:calendar-color" value false
  else
    msg <- of_sum (str_plus "Unknown info key " key) ;;
    raise (ValueError msg).

(** The container type the resources listener expects for a sync type. *)
Definition tag_of_sync_type (st : string) : exn + string :=
  if String.eqb st "contacts" then inr "VADDRESSBOOK"
  else if String.eqb st "calendars" then inr "VCALENDAR"
  else inl (RuntimeError ("Unknown sync type " ++ st)).

(** [resources_listener(path, datetime, key, value, extra)]; [sync_type] is
    the variable of [__init__] the closure captured. *)
Definition resources_listener (path : list string) (datetime : string)
    (key value : pyval) : M unit :=
  if negb (Nat.eqb (List.length path) 1) then
    raise (ValueError ("Invalid path " ++ str_of_path path))
  else
    let uid := hd "" path in
    href <- get_href uid ;;
    if is_None value then
      existing <- get href ;;
      match existing with
      | Some _ => delete (Some href) false
      | None => ret tt
      end
    else
      item <- of_sum (readOne value) ;;
      st <- (fun w => Ok (sync_type w) w) ;;
      tag <- of_sum (tag_of_sync_type st) ;;
      item' <- of_sum (check_and_sanitize_item item uid tag) ;;
      upload href item' false ;;;
      ret tt.

(** The entry [delete] appends for [href], read off the tables. *)
Definition delete_entry (m : HrefMappings.t) (href : option string) : event :=
  match href with
  | None => EvSetEntry ["info"] (PStr "deleted") (PBool true)
  | Some h => EvSetEntry ["resources"; HrefMappings.get_uid m h] PNone PNone
  end.

(** The entries [set_meta_all] appends for [props.items()] against the
    metadata [current] on disk. *)
Fixpoint meta_entries (current : PyDict.t pyval) (kvs : list (string * pyval))
    : list event :=
  match kvs with
  | [] => []
  | (key, value) :: rest =>
      (if py_eq (PyDict.get_default current key PNone) value then []
       else if String.eqb key "D:displayname" then
         [EvSetEntry ["info"] (PStr "name") value]
       else if String.eqb key "ICAL:calendar-color" then
         [EvSetEntry ["info"] (PStr "color") value]
       else []) ++ meta_entries current rest
  end%list.

(** [Collection.__init__] for a path of two attributes, on the files found
    there. *)
Definition init (attributes : list string) (files : Store)
    (f : HrefMappings.hrefs_file) : option World :=
  match attributes with
  | [_; segment] =>
      let st := hd "" (PyStr.split "-" segment) in
      Some (mkWorld st (PyStr.slice_from (String.length st + 1) segment)
                    files (HrefMappings.load_hrefs st f) [])
  | _ => None
  end.

End Collection.

Arguments Ok {B A} a w.
Arguments Raise {B A} e w.

End Bridge.

(* ================================================================= *)
(** ** The class methods: discovery and creation *)

(** What the class methods call: Radicale's [storage] module and base
    class, and the static functions of [libdecsync.Decsync] on the
    configured [decsync_dir]. *)
Class Host : Type := {
  Coll : Type;
  ItemList : Type;
  (** [collection.path] *)
  coll_path : Coll -> string;
  (** [storage.sanitize_path] *)
  sanitize_path : string -> string;
  (** [list(super().discover(path, depth))] *)
  base_discover : string -> string -> exn + list Coll;
  (** [super().create_collection(href, items, props)] *)
  base_create_collection :
    string -> option ItemList -> option (PyDict.t pyval) -> exn + Coll;
  (** [Decsync.list_collections(cls.decsync_dir, sync_type)] *)
  list_collections : string -> list string;
  (** [Decsync.get_static_info(cls.decsync_dir, sync_type, collection, key)] *)
  get_static_info : string -> string -> string -> pyval
}.

Module Lifecycle.

Section ClassMethods.
Context {H : Host}.

(** [_get_attributes_from_path] *)
Definition _get_attributes_from_path (path : string) : list string :=
  let sane_path := PyStr.strip "/" (sanitize_path path) in
  let attributes := PyStr.split "/" sane_path in
  if String.eqb (hd "" attributes) "" then removelast attributes
  else attributes.

(** What a run of the [discover] generator does, in order.  The events of a
    new child name the remote collection it was made for. *)
Inductive disc_event : Type :=
| YieldLocal (c : Coll)
| Materialize (sync_type collection child_path : string)
              (props : PyDict.t pyval) (child : Coll)
    (** [super().create_collection(child_path, props=props)] returned [child] *)
| InitStoredEntries (child : Coll)
| ExecuteStoredEntries (channel : list string) (child : Coll)
| YieldChild (sync_type collection : string) (child : Coll).

(** The events that make or yield a child for one remote collection. *)
Definition made_for (sync_type collection : string) (e : disc_event) : Prop :=
  match e with
  | Materialize st c _ _ _ => st = sync_type /\ c = collection
  | YieldChild st c _ => st = sync_type /\ c = collection
  | _ => False
  end.

(** The collections the generator yields. *)
Definition yielded (evs : list disc_event) : list Coll :=
  flat_map (fun e => match e with
                     | YieldLocal c => [c]
                     | YieldChild _ _ c => [c]
                     | _ => []
                     end) evs.

(** [get_static_info(..., "deleted") == True] *)
Definition marked_deleted (sync_type collection : string) : bool :=
  py_eq (get_static_info sync_type collection "deleted") (PBool true).

(** The [props] built for a new child. *)
Definition child_props (sync_type : string) : exn + PyDict.t pyval :=
  if String.eqb sync_type "contacts" then
    inr (PyDict.set PyDict.empty "tag" (PStr "VADDRESSBOOK"))
  else if String.eqb sync_type "calendars" then
    inr (PyDict.set
           (PyDict.set PyDict.empty "tag" (PStr "VCALENDAR"))
           "C:supported-calendar-component-set" (PStr "VEVENT"))
  else inl (RuntimeError ("Unknown sync type " ++ sync_type)).

(** One turn of the inner loop of [discover]. *)
Definition discover_collection (path sync_type collection : string)
    (known_paths : list string) : list disc_event * option exn :=
  let child_path :=
    PyStr.strip "/"
      (sanitize_path (path ++ "/" ++ sync_type ++ "-" ++ collection)) in
  if existsb (String.eqb child_path) known_paths then ([], None)
  else if marked_deleted sync_type collection then ([], None)
  else
    match child_props sync_type with
    | inl e => ([], Some e)
    | inr props =>
        match base_create_collection child_path None (Some props) with
        | inl e => ([], Some e)
        | inr child =>
            ([Materialize sync_type collection child_path props child;
              InitStoredEntries child;
              ExecuteStoredEntries ["info"] child;
              ExecuteStoredEntries ["resources"] child;
              YieldChild sync_type collection child], None)
        end
    end.

(** The inner loop: it stops at the first exception. *)
Fixpoint discover_collections (path sync_type : string)
    (known_paths : list string) (remote : list string)
    : list disc_event * option exn :=
  match remote with
  | [] => ([], None)
  | collection :: rest =>
      match discover_collection path sync_type collection known_paths with
      | (evs, Some e) => (evs, Some e)
      | (evs, None) =>
          let r := discover_collections path sync_type known_paths rest in
          ((evs ++ fst r)%list, snd r)
      end
  end.

(** The outer loop, over [["contacts", "calendars"]]. *)
Fixpoint discover_sync_types (path : string) (known_paths : list string)
    (sync_types : list string) : list disc_event * option exn :=
  match sync_types with
  | [] => ([], None)
  | sync_type :: rest =>
      match discover_collections path sync_type known_paths
              (list_collections sync_type) with
      | (evs, Some e) => (evs, Some e)
      | (evs, None) =>
          let r := discover_sync_types path known_paths rest in
          ((evs ++ fst r)%list, snd r)
      end
  end.

(** [Collection.discover]: the events of a full run of the generator and
    the exception that ended it, if any. *)
Definition discover (path depth : string) : list disc_event * option exn :=
  match base_discover path depth with
  | inl e => ([], Some e)
  | inr collections =>
      let locals := map YieldLocal collections in
      if String.eqb depth "0" then (locals, None)
      else
        let attributes := _get_attributes_from_path path in
        match List.length attributes with
        | 0 => (locals, None)
        | 1 =>
            let known_paths := map coll_path collections in
            let r := discover_sync_types path known_paths
                       ["contacts"; "calendars"] in
            ((locals ++ fst r)%list, snd r)
        | 2 => (locals, None)
        | _ => (locals, Some (ValueError "Invalid number of attributes"))
        end
  end.

(** [props.get("tag")] *)
Definition tag_of (props : PyDict.t pyval) : pyval :=
  PyDict.get_default props "tag" PNone.

(** The sync type [create_collection] derives from the tag. *)
Definition sync_type_of_tag (tag : pyval) : exn + string :=
  if py_eq tag (PStr "VADDRESSBOOK") then inr "contacts"
  else if py_eq tag (PStr "VCALENDAR") then inr "calendars"
  else match str_plus "Unknown tag " tag with
       | inl e => inl e
       | inr msg => inl (ValueError msg)
       end.

(** [attributes[-1] = prefix + attributes[-1]]; an empty list has no last
    element. *)
Definition prefix_last (prefix : string) (attributes : list string)
    : exn + list string :=
  match rev attributes with
  | [] => inl IndexError
  | last :: front => inr (rev front ++ [(prefix ++ last)%string])%list
  end.

(** [Collection.create_collection] *)
Definition create_collection (href : string) (items : option ItemList)
    (props : option (PyDict.t pyval)) : exn + Coll :=
  match props with
  | None => base_create_collection href items props
  | Some p =>
      match sync_type_of_tag (tag_of p) with
      | inl e => inl e
      | inr sync_type =>
          match prefix_last (sync_type ++ "-")
                            (_get_attributes_from_path href) with
          | inl e => inl e
          | inr attributes =>
              base_create_collection (PyStr.join "/" attributes) items props
          end
      end
  end.

End ClassMethods.

End Lifecycle.

(* ================================================================= *)
(** ** An in-memory instance of the collaborators

    Files kept in dictionaries, a parser that accepts any non-empty text.
    It lets the model run on concrete inputs; no general statement below
    depends on it. *)

Module Mem.

Record card : Type := mkCard { card_uid : string; card_text : string }.

Record files : Type := mkFiles {
  cards : PyDict.t card;
  props : PyDict.t pyval
}.

Definition mem_upload (href : string) (v : card) (st : files)
    : (exn + card) * files :=
  (inr v, mkFiles (PyDict.set (cards st) href v) (props st)).

(** Deleting an item that is not there raises, as Radicale does. *)
Definition mem_delete (href : option string) (st : files)
    : (exn + unit) * files :=
  match href with
  | None => (inr tt, mkFiles PyDict.empty PyDict.empty)
  | Some h =>
      match PyDict.get (cards st) h with
      | None => (inl (ExternalError "ComponentNotFoundError"), st)
      | Some _ => (inr tt, mkFiles (PyDict.remove (cards st) h) (props st))
      end
  end.

Definition mem_set_meta_all (p : PyDict.t pyval) (st : files)
    : (exn + unit) * files :=
  (inr tt, mkFiles (cards st) p).

Definition mem_readOne (v : pyval) : exn + card :=
  match v with
  | PStr s => if String.eqb s "" then inl (ExternalError "ParseError")
              else inr (mkCard "" s)
  | _ => inl TypeError
  end.

Definition mem_check (v : card) (uid tag : string) : exn + card :=
  inr (mkCard uid (card_text v)).

#[global] Instance storage : BaseStorage := {|
  Store := files;
  Item := card;
  VObject := card;
  item_uid := card_uid;
  item_serialize := card_text;
  base_get := fun href st => PyDict.get (cards st) href;
  base_upload := mem_upload;
  base_delete := mem_delete;
  base_get_meta := props;
  base_set_meta_all := mem_set_meta_all;
  readOne := mem_readOne;
  check_and_sanitize_item := mem_check
|}.

(** A calendar collection holding one event under [a.ics]. *)
Definition calendar : Bridge.World :=
  Bridge.mkWorld "calendars" "work"
    (mkFiles [("a.ics", mkCard "a" "BEGIN:VCALENDAR")]
             [("D:displayname", PStr "Work")])
    (HrefMappings.load_hrefs "calendars" HrefMappings.Unreadable) [].

(** A decsync directory advertising two address books, one of them deleted,
    and one calendar; the user already has the calendar locally. *)
Definition mem_static_info (sync_type collection key : string) : pyval :=
  if (String.eqb collection "old" && String.eqb key "deleted")%bool
  then PBool true else PNone.

#[global] Instance host : Host := {|
  Coll := string;
  ItemList := list card;
  coll_path := fun c => c;
  sanitize_path := fun p => "/" ++ PyStr.strip "/" p;
  base_discover := fun path depth => inr ["user/calendars-work"];
  base_create_collection := fun href items p => inr href;
  list_collections := fun sync_type =>
    if String.eqb sync_type "contacts" then ["friends"; "old"] else ["work"];
  get_static_info := mem_static_info
|}.

(** A mapping file in which uid [b] was stored under the default file name
    of uid [a]. *)
Definition borrowed_name : HrefMappings.t :=
  HrefMappings.load_hrefs "contacts"
    (HrefMappings.JsonObject [("b", "a.vcf")]).

(** The mapping tables after two uploads under the same file name. *)
Definition shared_href : HrefMappings.t :=
  HrefMappings.set_href "b" "x.vcf"
    (HrefMappings.set_href "a" "x.vcf"
       (HrefMappings.load_hrefs "contacts" HrefMappings.Unreadable)).

End Mem.

(* ================================================================= *)
(** ** Listener calls in sequence *)

Module Replay.

Section Deliveries.
Context {B : BaseStorage}.

(** One call the sync log makes on a listener of the collection: which
    listener, and the [path], [datetime], [key] and [value] it is given.
    Which calls are made, and in which order, is the library's business;
    a run enters as the list of its calls. *)
Inductive delivery : Type :=
| ToInfo (path : list string) (datetime : string) (key value : pyval)
| ToResources (path : list string) (datetime : string) (key value : pyval).

Definition deliver (d : delivery) : Bridge.M unit :=
  match d with
  | ToInfo path datetime key value =>
      Bridge.info_listener path datetime key value
  | ToResources path datetime key value =>
      Bridge.resources_listener path datetime key value
  end.

(** The calls one after another; an exception leaves the run. *)
Fixpoint run_listeners (ds : list delivery) : Bridge.M unit :=
  match ds with
  | [] => Bridge.ret tt
  | d :: rest => Bridge.bind (deliver d) (fun _ => run_listeners rest)
  end.

(** What a call may leave behind when it forwards nothing: the tables as
    they were and, after the old trace, storage mutations only. *)
Definition quiet {A : Type} (w : Bridge.World) (r : Bridge.result A) : Prop :=
  Bridge.mappings (Bridge.final r) = Bridge.mappings w /\
  Bridge.sync_type (Bridge.final r) = Bridge.sync_type w /\
  exists evs,
    Bridge.trace (Bridge.final r) = (Bridge.trace w ++ evs)%list /\
    Forall (fun e => is_set_entry e = false) evs.

End Deliveries.

End Replay.

(* ================================================================= *)
(** ** The shape of a discovery run *)

Module Shape.

Section Blocks.
Context {H : Host}.

(** The path [discover] gives the child of a remote collection. *)
Definition child_path_of (path sync_type collection : string) : string :=
  PyStr.strip "/"
    (sanitize_path (path ++ "/" ++ sync_type ++ "-" ++ collection)).

(** What [discover] does for one new child, from creation to yield. *)
Definition child_block (sync_type collection child_path : string)
    (props : PyDict.t pyval) (child : Coll) : list Lifecycle.disc_event :=
  [Lifecycle.Materialize sync_type collection child_path props child;
   Lifecycle.InitStoredEntries child;
   Lifecycle.ExecuteStoredEntries ["info"] child;
   Lifecycle.ExecuteStoredEntries ["resources"] child;
   Lifecycle.YieldChild sync_type collection child].

(** A list of events made of such blocks only. *)
Inductive child_blocks : list Lifecycle.disc_event -> Prop :=
| blocks_nil : child_blocks []
| blocks_cons sync_type collection child_path props child rest :
    child_blocks rest ->
    child_blocks
      (child_block sync_type collection child_path props child ++ rest)%list.

(** [child_path in known_paths] *)
Definition known (child_path : string) (known_paths : list string) : bool :=
  existsb (String.eqb child_path) known_paths.

End Blocks.

End Shape.

(* ================================================================= *)
(** * Properties *)

(** ** Strings and dictionaries *)

Module PyStrFacts.
Import PyStr.

Lemma substring_0_0 (s : string) : substring 0 0 s = EmptyString.
Proof. destruct s; reflexivity. Qed.

Lemma substring_prefix (s t : string) :
  substring 0 (String.length s) (s ++ t) = s.
Proof.
  induction s as [|a s IH]; simpl.
  - apply substring_0_0.
  - now rewrite IH.
Qed.

Lemma length_app (s t : string) :
  String.length (s ++ t) = String.length s + String.length t.
Proof. induction s as [|a s IH]; simpl; [reflexivity | now rewrite IH]. Qed.

(** Dropping a non-empty suffix that was just appended gives the stem back. *)
Lemma slice_to_neg_app (s t : string) :
  t <> EmptyString -> slice_to_neg (String.length t) (s ++ t) = s.
Proof.
  intros Ht. unfold slice_to_neg.
  destruct (String.length t) as [|n] eqn:E.
  - destruct t; [congruence | discriminate].
  - rewrite <- E, length_app.
    replace (String.length s + String.length t - String.length t)
      with (String.length s) by lia.
    apply substring_prefix.
Qed.

(** A string no longer than the dropped length slices to the empty string. *)
Lemma slice_to_neg_short (n : nat) (s : string) :
  String.length s <= n -> slice_to_neg n s = EmptyString.
Proof.
  intros Hle. unfold slice_to_neg. destruct n as [|n]; [reflexivity|].
  replace (String.length s - S n) with 0 by lia. apply substring_0_0.
Qed.

End PyStrFacts.

Module PyDictFacts.
Import PyDict.

Section Facts.
Context {V : Type}.
Implicit Types (d : PyDict.t V) (k : string) (v : V).

Lemma get_set_same d k v : get (set d k v) k = Some v.
Proof.
  induction d as [|[k' v'] d IH]; simpl.
  - now rewrite String.eqb_refl.
  - destruct (String.eqb k k') eqn:E; simpl; rewrite E; [reflexivity | exact IH].
Qed.

Lemma get_set_other d k k0 v : k0 <> k -> get (set d k v) k0 = get d k0.
Proof.
  intros Hne. induction d as [|[k' v'] d IH]; simpl.
  - destruct (String.eqb_spec k0 k); [contradiction | reflexivity].
  - destruct (String.eqb_spec k k') as [->|Hk]; simpl.
    + destruct (String.eqb_spec k0 k'); [contradiction | reflexivity].
    + destruct (String.eqb k0 k'); [reflexivity | exact IH].
Qed.

Lemma get_set d k k0 v :
  get (set d k v) k0 = if String.eqb k0 k then Some v else get d k0.
Proof.
  destruct (String.eqb_spec k0 k) as [->|Hne].
  - apply get_set_same.
  - now apply get_set_other.
Qed.

(** What [get] finds is a binding of the dictionary. *)
Lemma get_In d k v : get d k = Some v -> In (k, v) d.
Proof.
  induction d as [|[k' v'] d IH]; simpl; [discriminate|].
  destruct (String.eqb_spec k k') as [->|Hne].
  - intros [= ->]. now left.
  - intros Hg. right. now apply IH.
Qed.

(** A key that occurs in the dictionary is found, possibly with the value
    of an earlier binding. *)
Lemma In_get d k v : In (k, v) d -> exists v', get d k = Some v'.
Proof.
  induction d as [|[k' v'] d IH]; simpl; [contradiction|].
  intros [Heq | Hin].
  - injection Heq as -> ->. rewrite String.eqb_refl. now exists v.
  - destruct (String.eqb k k'); [now exists v' | now apply IH].
Qed.

End Facts.

End PyDictFacts.

(* ================================================================= *)
(** ** The identifier mapping *)

Module HrefMappingsFacts.
Import HrefMappings PyDictFacts.

(** Every href met by the loop, or already present, ends up as a key. *)
Lemma invert_fold_key (l : list (string * string)) :
  forall (acc : PyDict.t string) (href : string),
    (exists uid, In (uid, href) l) \/ (exists uid, PyDict.get acc href = Some uid) ->
    exists uid', PyDict.get (fold_left invert_step l acc) href = Some uid'.
Proof.
  induction l as [|[u h] l IH]; intros acc href Hsrc; simpl.
  - destruct Hsrc as [[uid []] | Hacc]; exact Hacc.
  - apply IH. destruct Hsrc as [[uid [Heq | Hin]] | [uid Hacc]].
    + injection Heq as -> ->. right. exists uid.
      unfold invert_step; simpl. apply get_set_same.
    + left. now exists uid.
    + right. unfold invert_step; simpl. rewrite get_set.
      destruct (String.eqb href h); [now exists u | now exists uid].
Qed.

(** Every entry of the result was written by the loop or was there before. *)
Lemma invert_fold_value (l : list (string * string)) :
  forall (acc : PyDict.t string) (href uid : string),
    PyDict.get (fold_left invert_step l acc) href = Some uid ->
    In (uid, href) l \/ PyDict.get acc href = Some uid.
Proof.
  induction l as [|[u h] l IH]; intros acc href uid Hget; simpl in *.
  - now right.
  - apply IH in Hget as [Hin | Hacc].
    + left. now right.
    + unfold invert_step in Hacc; simpl in Hacc. rewrite get_set in Hacc.
      destruct (String.eqb_spec href h) as [->|Hne].
      * injection Hacc as ->. left. now left.
      * now right.
Qed.

Lemma covered_load (sync_type : string) (f : hrefs_file) :
  covered (load_hrefs sync_type f).
Proof.
  split; simpl; intros a b Hget.
  - apply invert_fold_key. left. exists a. now apply get_In.
  - apply invert_fold_value in Hget as [Hin | Hempty]; [|discriminate].
    now apply In_get in Hin.
Qed.

Lemma covered_set_href (m : t) (uid href : string) :
  covered m -> covered (set_href uid href m).
Proof.
  intros [Hfwd Hbwd]. unfold set_href.
  destruct (String.eqb href (get_href m uid)); [now split|].
  split; simpl; intros a b; rewrite !get_set.
  - destruct (String.eqb_spec a uid) as [->|Ha].
    + intros [= <-]. rewrite String.eqb_refl. now exists uid.
    + intros Hget. destruct (String.eqb b href); [now exists uid|].
      now apply Hfwd in Hget.
  - destruct (String.eqb_spec a href) as [->|Ha].
    + intros [= <-]. rewrite String.eqb_refl. now exists href.
    + intros Hget. destruct (String.eqb b uid); [now exists href|].
      now apply Hbwd in Hget.
Qed.

Lemma reachable_covered (m : t) : reachable m -> covered m.
Proof.
  induction 1 as [st f | m uid href _ IH].
  - apply covered_load.
  - now apply covered_set_href.
Qed.

(** The suffix is fixed at load time. *)
Lemma reachable_suffix (m : t) :
  reachable m -> exists sync_type, _suffix m = suffix_of sync_type.
Proof.
  induction 1 as [st f | m uid href _ [st IH]].
  - now exists st.
  - exists st. unfold set_href.
    destruct (String.eqb href (get_href m uid)); [exact IH | exact IH].
Qed.

Lemma suffix_of_cases (sync_type : string) :
  suffix_of sync_type = ".vcf" \/ suffix_of sync_type = ".ics".
Proof. unfold suffix_of. destruct (String.eqb sync_type "contacts"); auto. Qed.

Lemma reachable_suffix_length (m : t) :
  reachable m -> String.length (_suffix m) = 4.
Proof.
  intros Hr. destruct (reachable_suffix m Hr) as [st ->].
  destruct (suffix_of_cases st) as [-> | ->]; reflexivity.
Qed.

(** A [set_href] that is not skipped stores the pair in both tables. *)
Lemma set_href_stores (m : t) (uid href : string) :
  href <> get_href m uid ->
  PyDict.get (_hrefs (set_href uid href m)) uid = Some href /\
  PyDict.get (_uids (set_href uid href m)) href = Some uid.
Proof.
  intros Hne. unfold set_href.
  destruct (String.eqb_spec href (get_href m uid)); [contradiction|].
  simpl. split; apply get_set_same.
Qed.

(** The scenario of the specification: no mapping file, contacts. *)
Example scenario_custom_href :
  let m0 := load_hrefs "contacts" Unreadable in
  let m1 := set_href "abc" "custom.vcf" m0 in
  get_href m0 "abc" = "abc.vcf" /\
  get_href m1 "abc" = "custom.vcf" /\
  get_uid m1 "custom.vcf" = "abc" /\
  on_disk m1 = JsonObject [("abc", "custom.vcf")].
Proof. repeat split. Qed.

(** A repeated href in the file: the later uid wins the reverse entry. *)
Example scenario_repeated_href :
  _uids (load_hrefs "calendars" (JsonObject [("u1", "e.ics"); ("u2", "e.ics")]))
  = [("e.ics", "u2")].
Proof. reflexivity. Qed.

(** C3, as stated, fails: after [set_href("a", "x.vcf")] and
    [set_href("b", "x.vcf")] on an empty mapping, two uids share one href
    and the reverse table answers ["b"] for the href of ["a"]. *)
Lemma C3_shared_href_not_injective :
  reachable Mem.shared_href /\
  ~ injective_both Mem.shared_href /\
  ~ mutually_inverse Mem.shared_href.
Proof.
  split; [|split].
  - unfold Mem.shared_href. do 2 apply reach_set_href. apply reach_load.
  - intros [Hinj _].
    specialize (Hinj "a" "b" "x.vcf" eq_refl eq_refl). discriminate.
  - intros [Hfwd _].
    specialize (Hfwd "a" "x.vcf" eq_refl). discriminate.
Qed.

(** C3, amended: in every state reached by [load_hrefs] followed by
    [set_href] calls, each href stored in the forward table is a key of the
    reverse table and each uid stored in the reverse table is a key of the
    forward table; and a [set_href(uid, href)] that is not skipped leaves
    [_hrefs[uid] = href] and [_uids[href] = uid]. *)
Theorem C3_tables_cover_each_other (m : t) :
  reachable m ->
  covered m /\
  (forall uid href,
      href <> get_href m uid ->
      PyDict.get (_hrefs (set_href uid href m)) uid = Some href /\
      PyDict.get (_uids (set_href uid href m)) href = Some uid).
Proof.
  intros Hr. split.
  - now apply reachable_covered.
  - intros uid href. apply set_href_stores.
Qed.

Lemma C3_tables_cover_each_other_witness :
  reachable Mem.shared_href /\
  covered Mem.shared_href /\
  PyDict.get (_hrefs (set_href "a" "y.vcf" Mem.shared_href)) "a" = Some "y.vcf" /\
  PyDict.get (_uids (set_href "a" "y.vcf" Mem.shared_href)) "y.vcf" = Some "a".
Proof.
  assert (Hr : reachable Mem.shared_href).
  { unfold Mem.shared_href. do 2 apply reach_set_href. apply reach_load. }
  destruct (C3_tables_cover_each_other Mem.shared_href Hr) as [Hc Hs].
  split; [exact Hr | split; [exact Hc|]].
  apply Hs. vm_compute. discriminate.
Defined.

(** The early [return] of [set_href]. *)
Lemma set_href_skipped (m : t) (uid href : string) :
  href = get_href m uid -> set_href uid href m = m.
Proof.
  intros ->. unfold set_href. now rewrite String.eqb_refl.
Qed.

(** C4: [set_href(uid, href)] with [href] equal to what [get_href(uid)]
    already answers (a stored override or the default [uid + suffix])
    changes neither table, nor the file, and performs no write. *)
Theorem C4_set_href_current_is_noop (m : t) (uid href : string) :
  href = get_href m uid ->
  set_href uid href m = m /\
  _hrefs (set_href uid href m) = _hrefs m /\
  _uids (set_href uid href m) = _uids m /\
  on_disk (set_href uid href m) = on_disk m /\
  writes (set_href uid href m) = writes m.
Proof.
  intros Heq. rewrite (set_href_skipped m uid href Heq). repeat split.
Qed.

Lemma C4_set_href_current_is_noop_witness :
  "abc.vcf" = get_href (load_hrefs "contacts" Unreadable) "abc" /\
  set_href "abc" "abc.vcf" (load_hrefs "contacts" Unreadable)
  = load_hrefs "contacts" Unreadable.
Proof.
  split; [reflexivity|].
  apply (C4_set_href_current_is_noop (load_hrefs "contacts" Unreadable)).
  reflexivity.
Defined.

(** C5, as stated, fails.  With ["b"] stored under ["a.vcf"], uid ["a"] has
    no override, yet [get_uid("a.vcf")] answers ["b"]; and
    [set_href("a", "a.vcf")] is skipped, so the round trip from ["a"] still
    ends at ["b"]. *)
Lemma C5_round_trip_broken_by_borrowed_name :
  reachable Mem.borrowed_name /\
  PyDict.get (_hrefs Mem.borrowed_name) "a" = None /\
  get_uid Mem.borrowed_name ("a" ++ _suffix Mem.borrowed_name) <> "a" /\
  get_uid (set_href "a" "a.vcf" Mem.borrowed_name)
          (get_href (set_href "a" "a.vcf" Mem.borrowed_name) "a") <> "a".
Proof.
  split; [apply reach_load|].
  split; [reflexivity|].
  split; vm_compute; discriminate.
Qed.

(** The default names survive the round trip when the reverse table is
    silent about them. *)
Lemma default_round_trip (m : t) (uid : string) :
  reachable m ->
  PyDict.get (_uids m) (uid ++ _suffix m) = None ->
  get_uid m (uid ++ _suffix m) = uid.
Proof.
  intros Hr Hnone. unfold get_uid, PyDict.get_default. rewrite Hnone.
  apply PyStrFacts.slice_to_neg_app.
  destruct (reachable_suffix m Hr) as [st ->].
  destruct (suffix_of_cases st) as [-> | ->]; discriminate.
Qed.

(** C5, amended: in a state reached by [load_hrefs] and [set_href] calls,
    [get_uid(get_href(uid)) == uid] holds right after [set_href(uid, h)]
    whenever the call was not skipped, or the reverse table holds no entry
    that gives [h] to another uid; and in a freshly loaded mapping with no
    override for [uid] and no reverse entry for [uid + suffix],
    [get_href(uid) == uid + suffix] and [get_uid(uid + suffix) == uid],
    the suffix being [.vcf] for contacts and [.ics] otherwise. *)
Theorem C5_round_trip :
  (forall m uid h,
      reachable m ->
      (h <> get_href m uid \/
       forall uid', PyDict.get (_uids m) h = Some uid' -> uid' = uid) ->
      get_uid (set_href uid h m) (get_href (set_href uid h m) uid) = uid) /\
  (forall sync_type f uid,
      PyDict.get (_hrefs (load_hrefs sync_type f)) uid = None ->
      PyDict.get (_uids (load_hrefs sync_type f))
                 (uid ++ _suffix (load_hrefs sync_type f)) = None ->
      get_href (load_hrefs sync_type f) uid
        = uid ++ _suffix (load_hrefs sync_type f) /\
      get_uid (load_hrefs sync_type f)
              (uid ++ _suffix (load_hrefs sync_type f)) = uid /\
      _suffix (load_hrefs sync_type f)
        = if String.eqb sync_type "contacts" then ".vcf" else ".ics").
Proof.
  split.
  - intros m uid h Hr Hside.
    destruct (String.eqb_spec h (get_href m uid)) as [Heq | Hne].
    + (* skipped: the tables are those of [m] *)
      rewrite (set_href_skipped m uid h Heq), <- Heq.
      destruct Hside as [Hne | Hown]; [contradiction|].
      destruct (PyDict.get (_uids m) h) as [uid'|] eqn:Hrev.
      * unfold get_uid, PyDict.get_default. rewrite Hrev. now apply Hown.
      * destruct (PyDict.get (_hrefs m) uid) as [h0|] eqn:Hfwd.
        -- (* a stored override always has a reverse entry *)
           assert (h = h0) as ->.
           { rewrite Heq. unfold get_href, PyDict.get_default. now rewrite Hfwd. }
           destruct (reachable_covered m Hr) as [Hcov _].
           destruct (Hcov uid h0 Hfwd) as [u Hu]. congruence.
        -- assert (h = uid ++ _suffix m) as ->.
           { rewrite Heq. unfold get_href, PyDict.get_default. now rewrite Hfwd. }
           now apply default_round_trip.
    + destruct (set_href_stores m uid h Hne) as [Hfwd Hrev].
      unfold get_href at 1, PyDict.get_default. rewrite Hfwd.
      unfold get_uid, PyDict.get_default. now rewrite Hrev.
  - intros st f uid Hfwd Hrev. split; [|split].
    + unfold get_href, PyDict.get_default. now rewrite Hfwd.
    + apply default_round_trip; [apply reach_load | exact Hrev].
    + reflexivity.
Qed.

Lemma C5_round_trip_witness :
  reachable Mem.shared_href /\
  get_uid (set_href "a" "y.vcf" Mem.shared_href)
          (get_href (set_href "a" "y.vcf" Mem.shared_href) "a") = "a" /\
  get_href (load_hrefs "contacts" Unreadable) "abc" = "abc.vcf" /\
  get_uid (load_hrefs "contacts" Unreadable) "abc.vcf" = "abc".
Proof.
  assert (Hr : reachable Mem.shared_href).
  { unfold Mem.shared_href. do 2 apply reach_set_href. apply reach_load. }
  destruct C5_round_trip as [Hset Hload].
  split; [exact Hr | split].
  - apply Hset; [exact Hr|]. left. vm_compute. discriminate.
  - destruct (Hload "contacts" Unreadable "abc" eq_refl eq_refl) as (Hh & Hu & _).
    split; [exact Hh | exact Hu].
Defined.

(** C10: for an href with no stored reverse entry, [get_uid] answers the
    href without its last four characters, whatever they are; an unmapped
    href shorter than the suffix comes back as the empty string, which is
    not the href with its suffix stripped. *)
Theorem C10_get_uid_drops_four_characters (m : t) (href : string) :
  reachable m ->
  PyDict.get (_uids m) href = None ->
  get_uid m href = substring 0 (String.length href - 4) href /\
  (String.length href < 4 ->
   get_uid m href = "" /\ get_uid m href ++ _suffix m <> href).
Proof.
  intros Hr Hnone.
  pose proof (reachable_suffix_length m Hr) as Hlen.
  unfold get_uid, PyDict.get_default. rewrite Hnone, Hlen.
  split; [reflexivity|].
  intros Hshort.
  assert (Hempty : PyStr.slice_to_neg 4 href = "").
  { apply PyStrFacts.slice_to_neg_short. lia. }
  rewrite Hempty. split; [reflexivity|].
  simpl. intros Heq. rewrite <- Heq in Hshort. lia.
Qed.

Lemma C10_get_uid_drops_four_characters_witness :
  reachable Mem.shared_href /\
  get_uid Mem.shared_href "notes.txt" = "notes" /\
  get_uid Mem.shared_href "ab" = "".
Proof.
  assert (Hr : reachable Mem.shared_href).
  { unfold Mem.shared_href. do 2 apply reach_set_href. apply reach_load. }
  split; [exact Hr|].
  destruct (C10_get_uid_drops_four_characters Mem.shared_href "notes.txt" Hr eq_refl)
    as [Hlong _].
  destruct (C10_get_uid_drops_four_characters Mem.shared_href "ab" Hr eq_refl)
    as [_ Hshort].
  split; [exact Hlong|].
  apply Hshort. simpl. lia.
Defined.

End HrefMappingsFacts.

(* ================================================================= *)
(** ** Orderings of events *)

Module TraceFacts.

Lemma skipn_length_app {A : Type} (l l' : list A) :
  skipn (List.length l) (l ++ l')%list = l'.
Proof. induction l as [|a l IH]; simpl; [reflexivity | exact IH]. Qed.

Lemma log_entries_app (l l' : list event) :
  log_entries (l ++ l')%list = (log_entries l ++ log_entries l')%list.
Proof. apply filter_app. Qed.

(** Storage mutations leave the log as it is. *)
Lemma log_entries_app_storage (l l' : list event) :
  Forall (fun e => is_set_entry e = false) l' ->
  log_entries (l ++ l')%list = log_entries l.
Proof.
  intros Hall. rewrite log_entries_app.
  replace (log_entries l') with (@nil event); [apply app_nil_r|].
  induction Hall as [|e l' He _ IH]; simpl; [reflexivity|].
  now rewrite He.
Qed.

(** Appends first, mutations after: the order of [delete] and
    [set_meta_all]. *)
Lemma precedes_app (sets muts : list event) :
  Forall (fun e => is_set_entry e = true) sets ->
  Forall (fun e => is_set_entry e = false) muts ->
  append_precedes_mutation (sets ++ muts)%list.
Proof.
  intros Hsets Hmuts i j path key value op Hi Hj.
  destruct (Nat.lt_ge_cases j (List.length sets)) as [Hj_in | Hj_out].
  - rewrite nth_error_app1 in Hj by assumption.
    apply nth_error_In in Hj.
    rewrite Forall_forall in Hsets. apply Hsets in Hj. discriminate.
  - destruct (Nat.lt_ge_cases i (List.length sets)) as [Hi_in | Hi_out]; [lia|].
    rewrite nth_error_app2 in Hi by assumption.
    apply nth_error_In in Hi.
    rewrite Forall_forall in Hmuts. apply Hmuts in Hi. discriminate.
Qed.

(** Mutation first, append after: the order of [upload]. *)
Lemma follows_storage_first (op : storage_op) (rest : list event) :
  append_follows_mutation (EvStorage op :: rest).
Proof.
  intros i path key value Hi. destruct i as [|i]; [discriminate|].
  exists 0, op. split; [lia | reflexivity].
Qed.

Lemma follows_nil : append_follows_mutation [].
Proof. intros i path key value Hi. destruct i; discriminate. Qed.

(** A call that starts with an append does not have that order. *)
Lemma not_follows_set_first (path : list string) (key value : pyval)
    (rest : list event) :
  ~ append_follows_mutation (EvSetEntry path key value :: rest).
Proof.
  intros Hf. destruct (Hf 0 path key value eq_refl) as (j & op & Hlt & _). lia.
Qed.

End TraceFacts.

(* ================================================================= *)
(** ** The listeners and the forwarding methods *)

Module BridgeFacts.
Import Bridge TraceFacts.

Section Facts.
Context {B : BaseStorage}.

Lemma emit_all_nil (w : World) : emit_all [] w = w.
Proof. destruct w; unfold emit_all; simpl. now rewrite app_nil_r. Qed.

Lemma emit_all_app (evs evs' : list event) (w : World) :
  emit_all evs' (emit_all evs w) = emit_all (evs ++ evs')%list w.
Proof. unfold emit_all; simpl. now rewrite app_assoc. Qed.

(** The events of a call, once its final trace is known. *)
Lemma new_events_of_trace {A : Type} (w : World) (r : result A)
    (evs : list event) :
  trace (final r) = (trace w ++ evs)%list -> new_events w r = evs.
Proof. intros Htr. unfold new_events. rewrite Htr. apply skipn_length_app. Qed.

(** The loop of [set_meta_all] only appends, and what it appends is read
    off the metadata on disk. *)
Lemma forward_meta_run (kvs : list (string * pyval)) :
  forall w,
    forward_meta kvs w
    = Ok tt (emit_all (meta_entries (base_get_meta (store w)) kvs) w).
Proof.
  induction kvs as [|[key value] rest IH]; intros w; simpl.
  - unfold ret. now rewrite emit_all_nil.
  - unfold bind, get_meta_key, get_meta, bind, ret, set_entry.
    destruct (py_eq _ value); [| destruct (String.eqb key "D:displayname");
      [| destruct (String.eqb key "ICAL:calendar-color")]];
      rewrite IH; simpl; f_equal;
      try (now rewrite emit_all_app);
      unfold emit, emit_all; simpl; now rewrite <- app_assoc.
Qed.

Lemma meta_entries_are_appends (current : PyDict.t pyval)
    (kvs : list (string * pyval)) :
  Forall (fun e => is_set_entry e = true) (meta_entries current kvs).
Proof.
  induction kvs as [|[key value] rest IH]; simpl; [constructor|].
  destruct (py_eq _ value); [exact IH|].
  destruct (String.eqb key "D:displayname"); [constructor; [reflexivity | exact IH]|].
  destruct (String.eqb key "ICAL:calendar-color"); [constructor; [reflexivity | exact IH]|].
  exact IH.
Qed.

(** *** Events of the three forwarding methods *)

Lemma upload_events (href : string) (v : VObject) (w : World) :
  new_events w (upload href v true w)
  = match fst (base_upload href v (store w)) with
    | inr item =>
        [EvStorage (OpUpload href);
         EvSetEntry ["resources"; item_uid item] PNone
                    (PStr (item_serialize item))]
    | inl _ => []
    end.
Proof.
  apply new_events_of_trace.
  unfold upload, bind, call_base, set_href, set_entry, ret.
  destruct (base_upload href v (store w)) as [[e | item] st']; simpl.
  - now rewrite app_nil_r.
  - now rewrite <- app_assoc.
Qed.

Lemma delete_events (href : option string) (w : World) :
  new_events w (delete href true w)
  = delete_entry (mappings w) href ::
    match fst (base_delete href (store w)) with
    | inr _ => [EvStorage (OpDelete href)]
    | inl _ => []
    end.
Proof.
  apply new_events_of_trace.
  unfold delete, bind, call_base, get_uid, set_entry, ret.
  destruct href as [h|]; simpl;
    match goal with
    | |- context [base_delete ?x ?s] =>
        destruct (base_delete x s) as [[e | u] st']
    end; simpl; try reflexivity; now rewrite <- app_assoc.
Qed.

Lemma set_meta_all_events (props : PyDict.t pyval) (w : World) :
  new_events w (set_meta_all props true w)
  = (meta_entries (base_get_meta (store w)) (PyDict.items props) ++
     match fst (base_set_meta_all props (store w)) with
     | inr _ => [EvStorage (OpSetMetaAll props)]
     | inl _ => []
     end)%list.
Proof.
  apply new_events_of_trace.
  unfold set_meta_all, bind. rewrite forward_meta_run.
  unfold call_base; simpl.
  destruct (base_set_meta_all props (store w)) as [[e | u] st']; simpl.
  - now rewrite app_nil_r.
  - now rewrite <- app_assoc.
Qed.

(** *** The calls made with [update_decsync=False] *)

(** Case analysis on the innermost scrutinee of the goal. *)
Ltac split_innermost :=
  match goal with
  | |- context [match ?x with _ => _ end] =>
      lazymatch x with
      | context [match _ with _ => _ end] => fail
      | _ => destruct x eqn:?
      end
  end.

Lemma upload_quiet (href : string) (v : VObject) (w : World) :
  let r := upload href v false w in
  mappings (final r) = mappings w /\
  sync_type (final r) = sync_type w /\
  (trace (final r) = trace w \/
   trace (final r) = (trace w ++ [EvStorage (OpUpload href)])%list).
Proof.
  unfold upload, bind, call_base, ret.
  destruct (base_upload href v (store w)) as [[e | item] st']; simpl; auto.
Qed.

Lemma delete_quiet (href : option string) (w : World) :
  let r := delete href false w in
  mappings (final r) = mappings w /\
  sync_type (final r) = sync_type w /\
  (trace (final r) = trace w \/
   trace (final r) = (trace w ++ [EvStorage (OpDelete href)])%list).
Proof.
  unfold delete, bind, call_base, ret.
  destruct (base_delete href (store w)) as [[e | u] st']; simpl; auto.
Qed.

(** The resources listener changes the trace by at most one storage
    mutation, on the href the tables give for the uid. *)
Lemma resources_listener_effects (path : list string) (datetime : string)
    (key value : pyval) (w : World) :
  let r := resources_listener path datetime key value w in
  let href := HrefMappings.get_href (mappings w) (hd "" path) in
  mappings (final r) = mappings w /\
  (trace (final r) = trace w \/
   trace (final r) = (trace w ++ [EvStorage (OpDelete (Some href))])%list \/
   trace (final r) = (trace w ++ [EvStorage (OpUpload href)])%list).
Proof.
  cbv [resources_listener bind get_href get of_sum ret raise upload delete
       call_base].
  repeat (split_innermost; cbv beta iota); simpl; auto.
Qed.

(** C1: whatever entry the resources listener is given, and whichever
    branch it takes, the sync log afterwards holds the entries it held
    before: none of the events of the call is a [set_entry], and the
    mapping tables are untouched, so [set_href] did not run either. *)
Theorem C1_remote_resources_entry_is_not_forwarded
    (path : list string) (datetime : string) (key value : pyval) (w : World) :
  let r := resources_listener path datetime key value w in
  log_entries (trace (final r)) = log_entries (trace w) /\
  Forall (fun e => is_set_entry e = false) (new_events w r) /\
  mappings (final r) = mappings w.
Proof.
  intros r.
  destruct (resources_listener_effects path datetime key value w)
    as (Hm & Ht). fold r in Hm, Ht.
  assert (Hevs : exists evs, trace (final r) = (trace w ++ evs)%list /\
                             Forall (fun e => is_set_entry e = false) evs).
  { destruct Ht as [Ht | [Ht | Ht]].
    - exists []. rewrite app_nil_r. now split.
    - eexists. split; [exact Ht|]. now repeat constructor.
    - eexists. split; [exact Ht|]. now repeat constructor. }
  destruct Hevs as (evs & Htr & Hall).
  split; [|split].
  - rewrite Htr. now apply log_entries_app_storage.
  - now rewrite (new_events_of_trace w r evs Htr).
  - exact Hm.
Qed.

(** C8: a tombstone for a uid whose href holds no local item returns
    normally and leaves the collection as it was: files, tables and trace. *)
Theorem C8_tombstone_without_local_entry
    (uid datetime : string) (key : pyval) (w : World) :
  base_get (HrefMappings.get_href (mappings w) uid) (store w) = None ->
  resources_listener [uid] datetime key PNone w = Ok tt w.
Proof.
  intros Habsent.
  cbv [resources_listener bind get_href get ret]. simpl.
  now rewrite Habsent.
Qed.

(** ... and [delete] is what runs when the item is there. *)
Lemma tombstone_with_local_entry
    (uid datetime : string) (key : pyval) (w : World) (it : Item) :
  base_get (HrefMappings.get_href (mappings w) uid) (store w) = Some it ->
  resources_listener [uid] datetime key PNone w
  = delete (Some (HrefMappings.get_href (mappings w) uid)) false w.
Proof.
  intros Hthere.
  cbv [resources_listener bind get_href get ret]. simpl.
  now rewrite Hthere.
Qed.

(** C9: on the key ["deleted"] the info listener deletes the whole
    collection through the base class, whatever the value of the entry is,
    [False] included: the files are what [super().delete(None)] leaves,
    the call returns or raises as that delete does, its only event is the
    storage mutation (none when the delete raises), and the tables in
    memory are as before. *)
Theorem C9_info_deleted_ignores_value
    (path : list string) (datetime : string) (value : pyval) (w : World) :
  let r := info_listener path datetime (PStr "deleted") value w in
  store (final r) = snd (base_delete None (store w)) /\
  match fst (base_delete None (store w)) with
  | inr _ => r = Ok tt (final r) /\ new_events w r = [EvStorage (OpDelete None)]
  | inl e => r = Raise e (final r) /\ new_events w r = []
  end /\
  HrefMappings._suffix (mappings (final r)) = HrefMappings._suffix (mappings w) /\
  HrefMappings._hrefs (mappings (final r)) = HrefMappings._hrefs (mappings w) /\
  HrefMappings._uids (mappings (final r)) = HrefMappings._uids (mappings w) /\
  HrefMappings.writes (mappings (final r)) = HrefMappings.writes (mappings w).
Proof.
  cbv [info_listener delete bind ret call_base]. simpl.
  destruct (base_delete None (store w)) as [[e | []] st']; simpl.
  - repeat split. apply (new_events_of_trace w (Raise e (with_store st' w)) []).
    simpl. now rewrite app_nil_r.
  - repeat split.
    now apply (new_events_of_trace w
                 (Ok tt (emit (EvStorage (OpDelete None)) (with_store st' w)))).
Qed.

(** *** Rejected entries *)

Lemma py_eq_PStr (v : pyval) (s : string) :
  py_eq v (PStr s) = true <-> v = PStr s.
Proof.
  destruct v as [| b | n | t]; simpl; split; try discriminate.
  - intros Heq. apply String.eqb_eq in Heq. now subst.
  - intros [= ->]. apply String.eqb_refl.
Qed.

Lemma py_neq_PStr (v : pyval) (s : string) :
  v <> PStr s -> py_eq v (PStr s) = false.
Proof.
  intros Hne. destruct (py_eq v (PStr s)) eqn:E; [|reflexivity].
  apply py_eq_PStr in E. contradiction.
Qed.

Lemma info_listener_unknown_key
    (path : list string) (datetime : string) (key value : pyval) (w : World) :
  key <> PStr "name" -> key <> PStr "deleted" -> key <> PStr "color" ->
  info_listener path datetime key value w = Raise (value_error "Unknown info key " key) w.
Proof.
  intros Hn Hd Hc. unfold info_listener.
  rewrite (py_neq_PStr _ _ Hn), (py_neq_PStr _ _ Hd), (py_neq_PStr _ _ Hc).
  destruct key; reflexivity.
Qed.

Lemma resources_listener_bad_path
    (path : list string) (datetime : string) (key value : pyval) (w : World) :
  List.length path <> 1 ->
  resources_listener path datetime key value w
  = Raise (ValueError ("Invalid path " ++ str_of_path path)) w.
Proof.
  intros Hlen. unfold resources_listener.
  destruct (Nat.eqb_spec (List.length path) 1); [contradiction | reflexivity].
Qed.

(** C2, amended: [upload] appends its resources entry after the base-class
    upload has returned, and nothing when that upload raises; [delete] and
    [set_meta_all] append their entries first and call the base class
    last, so the entries are in the log even when the base class raises. *)
Theorem C2_forwarding_order (w : World) :
  (forall href v,
      new_events w (upload href v true w)
      = match fst (base_upload href v (store w)) with
        | inr item =>
            [EvStorage (OpUpload href);
             EvSetEntry ["resources"; item_uid item] PNone
                        (PStr (item_serialize item))]
        | inl _ => []
        end /\
      append_follows_mutation (new_events w (upload href v true w))) /\
  (forall href,
      new_events w (delete href true w)
      = delete_entry (mappings w) href ::
        match fst (base_delete href (store w)) with
        | inr _ => [EvStorage (OpDelete href)]
        | inl _ => []
        end /\
      append_precedes_mutation (new_events w (delete href true w))) /\
  (forall props,
      new_events w (set_meta_all props true w)
      = (meta_entries (base_get_meta (store w)) (PyDict.items props) ++
         match fst (base_set_meta_all props (store w)) with
         | inr _ => [EvStorage (OpSetMetaAll props)]
         | inl _ => []
         end)%list /\
      append_precedes_mutation (new_events w (set_meta_all props true w))).
Proof.
  split; [|split].
  - intros href v. split; [apply upload_events|].
    rewrite upload_events.
    destruct (fst (base_upload href v (store w)));
      [apply follows_nil | apply follows_storage_first].
  - intros href. split; [apply delete_events|].
    rewrite delete_events.
    apply (precedes_app [delete_entry (mappings w) href]).
    + constructor; [destruct href; reflexivity | constructor].
    + destruct (fst (base_delete href (store w))); now repeat constructor.
  - intros props. split; [apply set_meta_all_events|].
    rewrite set_meta_all_events.
    apply precedes_app; [apply meta_entries_are_appends|].
    destruct (fst (base_set_meta_all props (store w))); now repeat constructor.
Qed.

End Facts.

(** C2, as stated, fails for [delete]: deleting the event under [a.ics]
    appends the tombstone first and removes the file second; and deleting
    an href that has no file appends the tombstone although the storage
    raises and removes nothing. *)
Lemma C2_delete_appends_before_mutation :
  new_events Mem.calendar (delete (Some "a.ics") true Mem.calendar)
  = [EvSetEntry ["resources"; "a"] PNone PNone;
     EvStorage (OpDelete (Some "a.ics"))] /\
  ~ append_follows_mutation
      (new_events Mem.calendar (delete (Some "a.ics") true Mem.calendar)) /\
  delete (Some "zz.ics") true Mem.calendar
  = Raise (ExternalError "ComponentNotFoundError")
          (emit (EvSetEntry ["resources"; "zz"] PNone PNone) Mem.calendar).
Proof.
  split; [reflexivity | split; [|reflexivity]].
  apply not_follows_set_first.
Qed.

Lemma C8_tombstone_without_local_entry_witness :
  base_get (HrefMappings.get_href (mappings Mem.calendar) "u1")
           (store Mem.calendar) = None /\
  resources_listener ["u1"] "2026-01-01T00:00:00" PNone PNone Mem.calendar
  = Ok tt Mem.calendar.
Proof.
  split; [reflexivity|].
  apply C8_tombstone_without_local_entry. reflexivity.
Defined.

End BridgeFacts.

(* ================================================================= *)
(** ** Discovery and creation *)

Module LifecycleFacts.
Import Lifecycle.

Section Facts.
Context {H : Host}.

(** A turn of the inner loop makes events for its own remote collection
    only, and only when that collection is not marked deleted. *)
Lemma discover_collection_made_for
    (path sync_type collection : string) (known_paths : list string)
    (st c : string) (e : disc_event) :
  In e (fst (discover_collection path sync_type collection known_paths)) ->
  made_for st c e ->
  marked_deleted st c = false.
Proof.
  unfold discover_collection.
  destruct (existsb _ known_paths); [intros []|].
  destruct (marked_deleted sync_type collection) eqn:Hdel; [intros []|].
  destruct (child_props sync_type) as [err | props]; [intros []|].
  destruct (base_create_collection _ None (Some props)) as [err | child];
    [intros []|].
  simpl. intros [<- | [<- | [<- | [<- | [<- | []]]]]]; simpl;
    try contradiction; intros [<- <-]; exact Hdel.
Qed.

Lemma discover_collections_made_for
    (path sync_type : string) (known_paths remote : list string)
    (st c : string) (e : disc_event) :
  In e (fst (discover_collections path sync_type known_paths remote)) ->
  made_for st c e ->
  marked_deleted st c = false.
Proof.
  induction remote as [|collection rest IH]; simpl; [intros []|].
  destruct (discover_collection path sync_type collection known_paths)
    as [evs [err|]] eqn:Hone; simpl.
  - intros Hin. eapply discover_collection_made_for. rewrite Hone. exact Hin.
  - intros Hin. apply in_app_or in Hin as [Hin | Hin]; [|now apply IH].
    eapply discover_collection_made_for. rewrite Hone. exact Hin.
Qed.

Lemma discover_sync_types_made_for
    (path : string) (known_paths sync_types : list string)
    (st c : string) (e : disc_event) :
  In e (fst (discover_sync_types path known_paths sync_types)) ->
  made_for st c e ->
  marked_deleted st c = false.
Proof.
  induction sync_types as [|sync_type rest IH]; simpl; [intros []|].
  destruct (discover_collections path sync_type known_paths
              (list_collections sync_type)) as [evs [err|]] eqn:Hone; simpl.
  - intros Hin. eapply discover_collections_made_for. rewrite Hone. exact Hin.
  - intros Hin. apply in_app_or in Hin as [Hin | Hin]; [|now apply IH].
    eapply discover_collections_made_for. rewrite Hone. exact Hin.
Qed.

(** The collections of the base class are yielded as they are. *)
Lemma locals_not_made_for (cs : list Coll) (st c : string) (e : disc_event) :
  In e (map YieldLocal cs) -> ~ made_for st c e.
Proof.
  intros Hin. apply in_map_iff in Hin as (x & <- & _). simpl. tauto.
Qed.

Lemma discover_made_for (path depth st c : string) (e : disc_event) :
  In e (fst (discover path depth)) ->
  made_for st c e ->
  marked_deleted st c = false.
Proof.
  unfold discover.
  destruct (base_discover path depth) as [err | cs]; [intros []|].
  destruct (String.eqb depth "0");
    [intros Hin Hm; now apply (locals_not_made_for _ st c) in Hin|].
  destruct (List.length (_get_attributes_from_path path)) as [|[|[|n]]];
    cbn [fst];
    try (intros Hin Hm; now apply (locals_not_made_for _ st c) in Hin).
  intros Hin Hm. apply in_app_or in Hin as [Hin | Hin].
  - now apply (locals_not_made_for _ st c) in Hin.
  - eapply discover_sync_types_made_for; eassumption.
Qed.

(** C6: a remote collection whose static [deleted] info compares equal to
    [True] is neither created nor yielded as a new child by any run of
    [discover], whatever the path and the depth. *)
Theorem C6_deleted_remote_collection_not_materialized
    (sync_type collection : string) :
  py_eq (get_static_info sync_type collection "deleted") (PBool true) = true ->
  forall path depth : string,
    (forall child_path props child,
        ~ In (Materialize sync_type collection child_path props child)
             (fst (discover path depth))) /\
    (forall child,
        ~ In (YieldChild sync_type collection child)
             (fst (discover path depth))).
Proof.
  intros Hdel path depth. split.
  - intros child_path props child Hin.
    apply (discover_made_for path depth sync_type collection) in Hin;
      [|now split].
    unfold marked_deleted in Hin. congruence.
  - intros child Hin.
    apply (discover_made_for path depth sync_type collection) in Hin;
      [|now split].
    unfold marked_deleted in Hin. congruence.
Qed.

Lemma create_collection_unknown_tag
    (href : string) (items : option ItemList) (props : PyDict.t pyval) :
  tag_of props <> PStr "VADDRESSBOOK" ->
  tag_of props <> PStr "VCALENDAR" ->
  create_collection href items (Some props)
  = inl (value_error "Unknown tag " (tag_of props)).
Proof.
  intros Ha Hc. unfold create_collection, sync_type_of_tag.
  rewrite (BridgeFacts.py_neq_PStr _ _ Ha), (BridgeFacts.py_neq_PStr _ _ Hc).
  unfold value_error. destruct (str_plus "Unknown tag " (tag_of props)); reflexivity.
Qed.

End Facts.

Lemma C6_deleted_remote_collection_not_materialized_witness :
  py_eq (get_static_info "contacts" "old" "deleted") (PBool true) = true /\
  (forall child_path props child,
      ~ In (Materialize "contacts" "old" child_path props child)
           (fst (discover "/user" "1"))) /\
  (forall child,
      ~ In (YieldChild "contacts" "old" child) (fst (discover "/user" "1"))).
Proof.
  split; [reflexivity|].
  apply (C6_deleted_remote_collection_not_materialized (H := Mem.host)).
  reflexivity.
Defined.

End LifecycleFacts.

(* ================================================================= *)
(** ** Protocol violations *)

Module ProtocolFacts.

(** [str(path)] as Python prints it: a segment holding a single quote goes
    between double quotes, a backslash is doubled. *)
Example str_of_path_escapes :
  str_of_path ["it's"; "c"]
  = "[" ++ String double_quote ("it's" ++ String double_quote ", 'c']") /\
  str_of_path [String backslash "n"]
  = "['" ++ String backslash (String backslash "n']").
Proof. split; reflexivity. Qed.

(** C7: the info listener raises on every key other than ["name"],
    ["deleted"] and ["color"]; the resources listener raises on every path
    whose length is not 1; [create_collection] with explicit [props] raises
    when the tag is neither [VADDRESSBOOK] nor [VCALENDAR].  Each call ends
    in the exception, with the collection unchanged; on a bad path the
    exception is a [ValueError]. *)
Theorem C7_protocol_violations_raise {B : BaseStorage} {H : Host} :
  (forall path datetime key value (w : Bridge.World),
      key <> PStr "name" -> key <> PStr "deleted" -> key <> PStr "color" ->
      Bridge.info_listener path datetime key value w
      = Bridge.Raise (value_error "Unknown info key " key) w) /\
  (forall path datetime key value (w : Bridge.World),
      List.length path <> 1 ->
      exists msg,
        Bridge.resources_listener path datetime key value w
        = Bridge.Raise (ValueError msg) w) /\
  (forall href items props,
      Lifecycle.tag_of props <> PStr "VADDRESSBOOK" ->
      Lifecycle.tag_of props <> PStr "VCALENDAR" ->
      Lifecycle.create_collection href items (Some props)
      = inl (value_error "Unknown tag " (Lifecycle.tag_of props))).
Proof.
  split; [|split].
  - apply BridgeFacts.info_listener_unknown_key.
  - intros path datetime key value w Hlen. eexists.
    now apply BridgeFacts.resources_listener_bad_path.
  - apply LifecycleFacts.create_collection_unknown_tag.
Qed.

Lemma C7_protocol_violations_raise_witness :
  Bridge.info_listener ["info"] "2026-01-01T00:00:00" (PStr "owner")
                       (PStr "me") Mem.calendar
  = Bridge.Raise (ValueError "Unknown info key owner") Mem.calendar /\
  (exists msg,
      Bridge.resources_listener ["a"; "b"] "2026-01-01T00:00:00" PNone PNone
                                Mem.calendar
      = Bridge.Raise (ValueError msg) Mem.calendar) /\
  Lifecycle.create_collection "/user/tasks" None
                              (Some [("tag", PStr "VTODO")])
  = inl (ValueError "Unknown tag VTODO").
Proof.
  destruct (@C7_protocol_violations_raise Mem.storage Mem.host)
    as (Hinfo & Hres & Hcreate).
  split; [|split].
  - apply Hinfo; discriminate.
  - apply Hres. simpl. lia.
  - apply (Hcreate "/user/tasks" None [("tag", PStr "VTODO")]); discriminate.
Defined.

End ProtocolFacts.

(* ================================================================= *)
(** ** More on the identifier mapping *)

Module HrefMappingsMore.
Import HrefMappings PyDictFacts.

(** *** Dictionaries stay dictionaries *)

Lemma set_fresh {V : Type} (d : PyDict.t V) (k : string) (v : V) :
  ~ In k (map fst d) -> PyDict.set d k v = (d ++ [(k, v)])%list.
Proof.
  induction d as [|[k' v'] d IH]; simpl; intros Hfresh; [reflexivity|].
  destruct (String.eqb_spec k k') as [->|Hne]; [tauto|].
  rewrite IH; [reflexivity | tauto].
Qed.

Lemma set_keys_present {V : Type} (d : PyDict.t V) (k : string) (v : V) :
  In k (map fst d) -> map fst (PyDict.set d k v) = map fst d.
Proof.
  induction d as [|[k' v'] d IH]; simpl; intros Hin; [contradiction|].
  destruct (String.eqb_spec k k') as [->|Hne]; simpl; [reflexivity|].
  rewrite IH; [reflexivity|]. destruct Hin as [Heq | Hin]; [congruence | exact Hin].
Qed.

Lemma set_keys_nodup {V : Type} (d : PyDict.t V) (k : string) (v : V) :
  NoDup (map fst d) -> NoDup (map fst (PyDict.set d k v)).
Proof.
  intros Hnd. destruct (in_dec string_dec k (map fst d)) as [Hin | Hout].
  - now rewrite set_keys_present.
  - rewrite set_fresh by assumption. rewrite map_app; simpl.
    apply NoDup_app; [exact Hnd | repeat constructor; intros [] |].
    intros x Hx [<- | []]. contradiction.
Qed.

Lemma of_members_from_nodup {V : Type} (ms : list (string * V)) :
  forall acc : PyDict.t V,
    NoDup (map fst acc) ->
    NoDup (map fst
             (fold_left (fun d kv => PyDict.set d (fst kv) (snd kv)) ms acc)).
Proof.
  induction ms as [|[k v] ms IH]; intros acc Hnd; simpl; [exact Hnd|].
  apply IH. now apply set_keys_nodup.
Qed.

Lemma of_members_nodup {V : Type} (ms : list (string * V)) :
  NoDup (map fst (PyDict.of_members ms)).
Proof. apply of_members_from_nodup. constructor. Qed.

(** Reading back the members of a dictionary gives the dictionary. *)
Lemma of_members_from_items {V : Type} (ms : list (string * V)) :
  forall acc : PyDict.t V,
    NoDup (map fst (acc ++ ms)%list) ->
    fold_left (fun d kv => PyDict.set d (fst kv) (snd kv)) ms acc
    = (acc ++ ms)%list.
Proof.
  induction ms as [|[k v] ms IH]; intros acc Hnd; simpl.
  - now rewrite app_nil_r.
  - assert (Hsplit : (acc ++ (k, v) :: ms = (acc ++ [(k, v)]) ++ ms)%list)
      by now rewrite <- app_assoc.
    rewrite Hsplit in Hnd |- *.
    rewrite set_fresh.
    + now apply IH.
    + rewrite !map_app in Hnd. simpl in Hnd.
      apply NoDup_app_remove_r in Hnd.
      apply NoDup_remove_2 in Hnd. now rewrite app_nil_r in Hnd.
Qed.

Lemma of_members_items {V : Type} (d : PyDict.t V) :
  NoDup (map fst d) -> PyDict.of_members (PyDict.items d) = d.
Proof. intros Hnd. now apply (of_members_from_items d []). Qed.

Lemma reachable_hrefs_nodup (m : t) :
  reachable m -> NoDup (map fst (_hrefs m)).
Proof.
  induction 1 as [st f | m uid href _ IH].
  - destruct f; simpl; [constructor | apply of_members_nodup].
  - unfold set_href. destruct (String.eqb href (get_href m uid)); [exact IH|].
    simpl. now apply set_keys_nodup.
Qed.

(** The file always holds the forward table. *)
Lemma reachable_on_disk (m : t) :
  reachable m -> json_load (on_disk m) = _hrefs m.
Proof.
  induction 1 as [st f | m uid href Hr IH].
  - reflexivity.
  - unfold set_href. destruct (String.eqb href (get_href m uid)); [exact IH|].
    simpl. apply of_members_items.
    apply set_keys_nodup. now apply reachable_hrefs_nodup.
Qed.

Lemma get_href_set_href (m : t) (uid href uid' : string) :
  get_href (set_href uid href m) uid'
  = if String.eqb uid' uid then href else get_href m uid'.
Proof.
  unfold set_href.
  destruct (String.eqb_spec href (get_href m uid)) as [Hcur | Hnew].
  - destruct (String.eqb_spec uid' uid) as [->|_]; [now symmetry | reflexivity].
  - unfold get_href, PyDict.get_default; simpl. rewrite get_set.
    now destruct (String.eqb uid' uid).
Qed.

Lemma get_uid_set_href (m : t) (uid href h : string) :
  get_uid (set_href uid href m) h
  = if (String.eqb h href && negb (String.eqb href (get_href m uid)))%bool
    then uid else get_uid m h.
Proof.
  unfold set_href.
  destruct (String.eqb href (get_href m uid)).
  - now rewrite andb_false_r.
  - rewrite andb_true_r. unfold get_uid, PyDict.get_default; simpl.
    rewrite get_set. now destruct (String.eqb h href).
Qed.

(** The uid an href resolves to right after it was set for that uid. *)
Lemma get_uid_of_set_href (m : t) (uid h : string) :
  reachable m ->
  (h <> get_href m uid \/
   forall uid', PyDict.get (_uids m) h = Some uid' -> uid' = uid) ->
  get_uid (set_href uid h m) h = uid.
Proof.
  intros Hr Hside. rewrite get_uid_set_href, String.eqb_refl. simpl.
  destruct (String.eqb_spec h (get_href m uid)) as [Heq | Hne]; [|reflexivity].
  simpl. destruct Hside as [Hne | Hown]; [contradiction|].
  destruct (PyDict.get (_uids m) h) as [uid'|] eqn:Hrev.
  - unfold get_uid, PyDict.get_default. rewrite Hrev. now apply Hown.
  - destruct (PyDict.get (_hrefs m) uid) as [h0|] eqn:Hfwd.
    + assert (h = h0) as ->.
      { rewrite Heq. unfold get_href, PyDict.get_default. now rewrite Hfwd. }
      destruct (HrefMappingsFacts.reachable_covered m Hr) as [Hcov _].
      destruct (Hcov uid h0 Hfwd) as [u Hu]. congruence.
    + assert (h = uid ++ _suffix m) as ->.
      { rewrite Heq. unfold get_href, PyDict.get_default. now rewrite Hfwd. }
      now apply HrefMappingsFacts.default_round_trip.
Qed.

(** X1: after [set_href(uid, href)], [get_href(uid)] is [href], whether
    the call wrote or was skipped, and every other uid resolves as before. *)
Theorem X1_get_href_after_set_href (m : t) (uid href uid' : string) :
  get_href (set_href uid href m) uid'
  = if String.eqb uid' uid then href else get_href m uid'.
Proof. apply get_href_set_href. Qed.

(** X2: [set_href] is idempotent: the second of two equal calls changes
    nothing and writes nothing. *)
Theorem X2_set_href_idempotent (m : t) (uid href : string) :
  set_href uid href (set_href uid href m) = set_href uid href m.
Proof.
  apply HrefMappingsFacts.set_href_skipped.
  pose proof (get_href_set_href m uid href uid) as Hget.
  rewrite String.eqb_refl in Hget. now symmetry.
Qed.

(** X3: [set_href(uid, href)] changes the reverse lookup at [href] only,
    and only when it is not skipped; every other href, the one [uid] had
    before included, resolves as it did. *)
Theorem X3_get_uid_after_set_href (m : t) (uid href h : string) :
  get_uid (set_href uid href m) h
  = if (String.eqb h href && negb (String.eqb href (get_href m uid)))%bool
    then uid else get_uid m h.
Proof. apply get_uid_set_href. Qed.

(** X4: what [load_hrefs] reads back from the file is the forward table
    the object had, after any sequence of [set_href] calls; with the same
    sync type every uid resolves to the same href. *)
Theorem X4_reload_restores_forward_table (m : t) (sync_type : string) :
  reachable m ->
  _hrefs (load_hrefs sync_type (on_disk m)) = _hrefs m /\
  (suffix_of sync_type = _suffix m ->
   forall uid, get_href (load_hrefs sync_type (on_disk m)) uid = get_href m uid).
Proof.
  intros Hr. pose proof (reachable_on_disk m Hr) as Hdisk. split.
  - exact Hdisk.
  - intros Hsuf uid. unfold get_href; simpl. now rewrite Hdisk, Hsuf.
Qed.

Lemma X4_reload_restores_forward_table_witness :
  reachable Mem.shared_href /\
  _hrefs (load_hrefs "contacts" (on_disk Mem.shared_href))
  = _hrefs Mem.shared_href /\
  get_href (load_hrefs "contacts" (on_disk Mem.shared_href)) "a" = "x.vcf".
Proof.
  assert (Hr : reachable Mem.shared_href).
  { unfold Mem.shared_href. do 2 apply reach_set_href. apply reach_load. }
  destruct (X4_reload_restores_forward_table Mem.shared_href "contacts" Hr)
    as [Htable Hget].
  split; [exact Hr | split; [exact Htable|]].
  rewrite (Hget eq_refl "a"). reflexivity.
Defined.

(** X5: for an href the reverse table does not hold, whose stripped uid
    the forward table does not hold, [get_href(get_uid(href)) == href]
    exactly when the href ends with the suffix of the collection. *)
Theorem X5_href_round_trip_needs_suffix (m : t) (href : string) :
  reachable m ->
  PyDict.get (_uids m) href = None ->
  PyDict.get (_hrefs m) (get_uid m href) = None ->
  (get_href m (get_uid m href) = href <->
   exists stem, href = stem ++ _suffix m).
Proof.
  intros Hr Hrev Hfwd.
  assert (Hback : get_href m (get_uid m href) = get_uid m href ++ _suffix m).
  { unfold get_href, PyDict.get_default. now rewrite Hfwd. }
  rewrite Hback. split.
  - intros Heq. now exists (get_uid m href).
  - intros [stem ->].
    now rewrite (HrefMappingsFacts.default_round_trip m stem Hr Hrev).
Qed.

Lemma X5_href_round_trip_needs_suffix_witness :
  reachable Mem.shared_href /\
  get_href Mem.shared_href (get_uid Mem.shared_href "card.vcf") = "card.vcf" /\
  get_href Mem.shared_href (get_uid Mem.shared_href "notes.txt") <> "notes.txt".
Proof.
  assert (Hr : reachable Mem.shared_href).
  { unfold Mem.shared_href. do 2 apply reach_set_href. apply reach_load. }
  split; [exact Hr | split].
  - apply (X5_href_round_trip_needs_suffix Mem.shared_href "card.vcf" Hr
             eq_refl eq_refl).
    now exists "card".
  - intros Heq.
    apply (X5_href_round_trip_needs_suffix Mem.shared_href "notes.txt" Hr
             eq_refl eq_refl) in Heq.
    destruct Heq as [stem Hstem]. vm_compute in Hstem.
    assert (Hlast : forall s, "notes.txt" = s ++ ".vcf" -> False).
    { intros s Hs.
      do 9 (destruct s as [|? s]; [discriminate | injection Hs as _ Hs]).
      destruct s; discriminate. }
    now apply (Hlast stem).
Defined.

End HrefMappingsMore.

(* ================================================================= *)
(** ** More on the listeners and the forwarding methods *)

Module BridgeMore.
Import Bridge Replay TraceFacts BridgeFacts.

(** Case analysis on the innermost scrutinee of the goal. *)
Ltac case_innermost :=
  match goal with
  | |- context [match ?x with _ => _ end] =>
      lazymatch x with
      | context [match _ with _ => _ end] => fail
      | _ => destruct x eqn:?
      end
  end.

Section Facts.
Context {B : BaseStorage}.

Lemma quiet_log {A : Type} (w : World) (r : result A) :
  quiet w r ->
  log_entries (trace (final r)) = log_entries (trace w) /\
  Forall (fun e => is_set_entry e = false) (new_events w r) /\
  mappings (final r) = mappings w.
Proof.
  intros (Hm & _ & evs & Htr & Hall). split; [|split].
  - rewrite Htr. now apply log_entries_app_storage.
  - now rewrite (new_events_of_trace w r evs Htr).
  - exact Hm.
Qed.

Lemma info_listener_quiet (path : list string) (datetime : string)
    (key value : pyval) (w : World) :
  quiet w (info_listener path datetime key value w).
Proof.
  unfold quiet.
  cbv [info_listener _set_meta_key set_meta_all delete get_meta bind of_sum
       ret raise call_base].
  repeat (case_innermost; cbv beta iota); simpl; repeat split;
    solve [ exists []; now rewrite app_nil_r
          | eexists; split; [reflexivity | now repeat constructor] ].
Qed.

Lemma resources_listener_quiet (path : list string) (datetime : string)
    (key value : pyval) (w : World) :
  quiet w (resources_listener path datetime key value w).
Proof.
  unfold quiet.
  cbv [resources_listener bind get_href get of_sum ret raise upload delete
       call_base].
  repeat (case_innermost; cbv beta iota); simpl; repeat split;
    solve [ exists []; now rewrite app_nil_r
          | eexists; split; [reflexivity | now repeat constructor] ].
Qed.

Lemma run_listeners_quiet (ds : list Replay.delivery) :
  forall w, quiet w (Replay.run_listeners ds w).
Proof.
  induction ds as [|d rest IH]; intros w; simpl.
  - repeat split. exists []. now rewrite app_nil_r.
  - assert (Hd : quiet w (Replay.deliver d w)).
    { destruct d; [apply info_listener_quiet | apply resources_listener_quiet]. }
    unfold bind. destruct (Replay.deliver d w) as [u w1 | e w1]; [|exact Hd].
    destruct Hd as (Hm1 & Hs1 & evs1 & Ht1 & Hq1). simpl in Hm1, Hs1, Ht1.
    destruct (IH w1) as (Hm2 & Hs2 & evs2 & Ht2 & Hq2).
    split; [congruence | split; [congruence|]].
    exists (evs1 ++ evs2)%list. split.
    + now rewrite Ht2, Ht1, app_assoc.
    + now apply Forall_app.
Qed.

(** The tables in memory and the list of writes, without the file. *)
Lemma quiet_tables {A : Type} (w : World) (r : result A) :
  quiet w r ->
  log_entries (trace (final r)) = log_entries (trace w) /\
  Forall (fun e => is_set_entry e = false) (new_events w r) /\
  HrefMappings._suffix (mappings (final r)) = HrefMappings._suffix (mappings w) /\
  HrefMappings._hrefs (mappings (final r)) = HrefMappings._hrefs (mappings w) /\
  HrefMappings._uids (mappings (final r)) = HrefMappings._uids (mappings w) /\
  HrefMappings.writes (mappings (final r)) = HrefMappings.writes (mappings w).
Proof.
  intros Hq. destruct (quiet_log w r Hq) as (Hlog & Hevs & ->).
  repeat split; assumption.
Qed.

(** X6: the info listener never forwards: for every key and value, also
    when it raises, the sync log afterwards holds the entries it held
    before, none of the events of the call is a [set_entry], and the
    tables in memory ([_suffix], [_hrefs], [_uids]) are untouched, with no
    write made through [set_href]. *)
Theorem X6_info_listener_forwards_nothing
    (path : list string) (datetime : string) (key value : pyval) (w : World) :
  let r := info_listener path datetime key value w in
  log_entries (trace (final r)) = log_entries (trace w) /\
  Forall (fun e => is_set_entry e = false) (new_events w r) /\
  HrefMappings._suffix (mappings (final r)) = HrefMappings._suffix (mappings w) /\
  HrefMappings._hrefs (mappings (final r)) = HrefMappings._hrefs (mappings w) /\
  HrefMappings._uids (mappings (final r)) = HrefMappings._uids (mappings w) /\
  HrefMappings.writes (mappings (final r)) = HrefMappings.writes (mappings w).
Proof. apply quiet_tables, info_listener_quiet. Qed.

(** X7: listener calls made one after another, in any number and order
    and up to the first exception, append nothing to the sync log and
    leave the tables in memory ([_suffix], [_hrefs], [_uids]) as they
    were, with no write made through [set_href]. *)
Theorem X7_listener_runs_forward_nothing
    (ds : list Replay.delivery) (w : World) :
  let r := Replay.run_listeners ds w in
  log_entries (trace (final r)) = log_entries (trace w) /\
  Forall (fun e => is_set_entry e = false) (new_events w r) /\
  HrefMappings._suffix (mappings (final r)) = HrefMappings._suffix (mappings w) /\
  HrefMappings._hrefs (mappings (final r)) = HrefMappings._hrefs (mappings w) /\
  HrefMappings._uids (mappings (final r)) = HrefMappings._uids (mappings w) /\
  HrefMappings.writes (mappings (final r)) = HrefMappings.writes (mappings w).
Proof. apply quiet_tables, run_listeners_quiet. Qed.

(** *** What [set_meta_all] forwards *)

Lemma meta_entries_in (current : PyDict.t pyval)
    (kvs : list (string * pyval)) (e : event) :
  In e (meta_entries current kvs) <->
  exists k value,
    In (k, value) kvs /\
    py_eq (PyDict.get_default current k PNone) value = false /\
    ((k = "D:displayname" /\ e = EvSetEntry ["info"] (PStr "name") value) \/
     (k = "ICAL:calendar-color" /\
      e = EvSetEntry ["info"] (PStr "color") value)).
Proof.
  induction kvs as [|[k0 v0] rest IH]; simpl.
  - split; [intros [] | intros (k & value & [] & _)].
  - rewrite in_app_iff, IH. split.
    + intros [Hhead | (k & value & Hin & Hrest)].
      * destruct (py_eq _ v0) eqn:Hsame; [destruct Hhead|].
        destruct (String.eqb_spec k0 "D:displayname") as [->|Hn].
        { destruct Hhead as [<- | []]. exists "D:displayname", v0. auto. }
        destruct (String.eqb_spec k0 "ICAL:calendar-color") as [->|Hc];
          [|destruct Hhead].
        destruct Hhead as [<- | []]. exists "ICAL:calendar-color", v0. auto.
      * exists k, value. auto.
    + intros (k & value & [Heq | Hin] & Hdiff & Hcase).
      * injection Heq as -> ->. left. rewrite Hdiff.
        destruct Hcase as [[-> ->] | [-> ->]]; simpl; auto.
      * right. exists k, value. auto.
Qed.

(** X8: the [set_entry] calls of [set_meta_all(props)] are exactly these:
    one on ["info"], key ["name"] or ["color"], for each item of [props]
    under [D:displayname] or [ICAL:calendar-color] whose value differs
    from the stored metadata.  Unchanged values and all other keys are
    not forwarded. *)
Theorem X8_set_meta_all_forwards_changed_name_and_color
    (props : PyDict.t pyval) (w : World)
    (path : list string) (key value : pyval) :
  In (EvSetEntry path key value) (new_events w (set_meta_all props true w))
  <->
  exists k,
    In (k, value) (PyDict.items props) /\
    py_eq (PyDict.get_default (base_get_meta (store w)) k PNone) value = false /\
    path = ["info"] /\
    ((k = "D:displayname" /\ key = PStr "name") \/
     (k = "ICAL:calendar-color" /\ key = PStr "color")).
Proof.
  rewrite set_meta_all_events, in_app_iff, meta_entries_in. split.
  - intros [(k & v & Hin & Hdiff & Hcase) | Htail].
    + exists k.
      destruct Hcase as [[-> [= -> -> ->]] | [-> [= -> -> ->]]]; auto 6.
    + destruct (fst (base_set_meta_all props (store w)));
        [destruct Htail | destruct Htail as [Hbad | []]; discriminate].
  - intros (k & Hin & Hdiff & -> & Hcase). left. exists k, value.
    destruct Hcase as [[-> ->] | [-> ->]]; auto 6.
Qed.

(** *** [upload] and the tables *)

(** X9: when the base class stores the item, [upload] returns it with the
    tables resolving its uid to the href it was stored under; when the base
    class raises, [upload] raises the same exception and neither the tables
    nor the sync log have changed. *)
Theorem X9_upload_records_href (href : string) (v : VObject) (w : World) :
  let r := upload href v true w in
  match fst (base_upload href v (store w)) with
  | inr item =>
      r = Ok item (final r) /\
      HrefMappings.get_href (mappings (final r)) (item_uid item) = href /\
      store (final r) = snd (base_upload href v (store w))
  | inl e =>
      r = Raise e (with_store (snd (base_upload href v (store w))) w)
  end.
Proof.
  cbv [upload bind call_base set_href set_entry ret].
  destruct (base_upload href v (store w)) as [[e | item] st']; simpl.
  - reflexivity.
  - repeat split.
    rewrite HrefMappingsMore.get_href_set_href. now rewrite String.eqb_refl.
Qed.

(** X10: the tombstone [delete(href)] publishes after an [upload] under
    that href carries the uid of the uploaded item, provided the upload had
    to write the mapping or no other uid held the href in the reverse
    table. *)
Theorem X10_delete_after_upload_names_the_same_uid
    (href : string) (v : VObject) (item : Item) (w : World) :
  HrefMappings.reachable (mappings w) ->
  fst (base_upload href v (store w)) = inr item ->
  (href <> HrefMappings.get_href (mappings w) (item_uid item) \/
   forall uid', PyDict.get (HrefMappings._uids (mappings w)) href = Some uid' ->
                uid' = item_uid item) ->
  let w1 := final (upload href v true w) in
  hd_error (new_events w1 (delete (Some href) true w1))
  = Some (EvSetEntry ["resources"; item_uid item] PNone PNone).
Proof.
  intros Hr Hup Hside w1.
  assert (Huid : HrefMappings.get_uid (mappings w1) href = item_uid item).
  { subst w1. cbv [upload bind call_base set_href set_entry ret].
    rewrite Hup. simpl.
    now apply HrefMappingsMore.get_uid_of_set_href. }
  rewrite delete_events. simpl. now rewrite Huid.
Qed.

(** *** Collections of an unknown sync type *)

(** X11: in a collection whose sync type is neither ["contacts"] nor
    ["calendars"], an upsert entry that parses raises [RuntimeError] before
    anything is stored; the collection is unchanged. *)
Theorem X11_upsert_on_unknown_sync_type_raises
    (uid datetime : string) (key value : pyval) (item : VObject) (w : World) :
  value <> PNone ->
  readOne value = inr item ->
  sync_type w <> "contacts" ->
  sync_type w <> "calendars" ->
  resources_listener [uid] datetime key value w
  = Raise (RuntimeError ("Unknown sync type " ++ sync_type w)) w.
Proof.
  intros Hval Hparse Hc Hk.
  cbv [resources_listener bind get_href get of_sum ret raise]. simpl.
  destruct value; [contradiction | | | ]; simpl; rewrite Hparse;
    unfold tag_of_sync_type;
    destruct (String.eqb_spec (sync_type w) "contacts"); try contradiction;
    destruct (String.eqb_spec (sync_type w) "calendars"); try contradiction;
    reflexivity.
Qed.

(** X18: after [upload(href, item)] stored an item, whatever entry arrives
    for the uid of that item is applied to that href: the listener stores
    there, deletes there, or touches no file at all. *)
Theorem X18_remote_entry_lands_on_uploaded_href
    (href : string) (v : VObject) (item : Item) (w : World)
    (datetime : string) (key value : pyval) :
  fst (base_upload href v (store w)) = inr item ->
  let w1 := final (upload href v true w) in
  let r := resources_listener [item_uid item] datetime key value w1 in
  new_events w1 r = [] \/
  new_events w1 r = [EvStorage (OpDelete (Some href))] \/
  new_events w1 r = [EvStorage (OpUpload href)].
Proof.
  intros Hup w1 r.
  assert (Hhref : HrefMappings.get_href (mappings w1) (item_uid item) = href).
  { subst w1. cbv [upload bind call_base set_href set_entry ret].
    rewrite Hup. simpl.
    rewrite HrefMappingsMore.get_href_set_href. now rewrite String.eqb_refl. }
  destruct (resources_listener_effects [item_uid item] datetime key value w1)
    as (_ & Ht). fold r in Ht. simpl in Ht. rewrite Hhref in Ht.
  destruct Ht as [Ht | [Ht | Ht]]; [left | right; left | right; right];
    apply new_events_of_trace; [now rewrite app_nil_r | exact Ht | exact Ht].
Qed.

End Facts.

Lemma X18_remote_entry_lands_on_uploaded_href_witness :
  let w1 := final (upload "renamed.ics" (Mem.mkCard "b" "BEGIN:VCALENDAR")
                          true Mem.calendar) in
  new_events w1 (resources_listener ["b"] "2026-01-01T00:00:00" PNone PNone w1)
  = [EvStorage (OpDelete (Some "renamed.ics"))].
Proof.
  destruct (X18_remote_entry_lands_on_uploaded_href (B := Mem.storage)
              "renamed.ics" (Mem.mkCard "b" "BEGIN:VCALENDAR")
              (Mem.mkCard "b" "BEGIN:VCALENDAR") Mem.calendar
              "2026-01-01T00:00:00" PNone PNone eq_refl)
    as [Hnone | [Hdel | Hup]].
  - discriminate Hnone.
  - exact Hdel.
  - discriminate Hup.
Defined.

Lemma X10_delete_after_upload_names_the_same_uid_witness :
  let w1 := final (upload "renamed.ics" (Mem.mkCard "b" "BEGIN:VCALENDAR")
                          true Mem.calendar) in
  HrefMappings.reachable (mappings Mem.calendar) /\
  hd_error (new_events w1 (delete (Some "renamed.ics") true w1))
  = Some (EvSetEntry ["resources"; "b"] PNone PNone).
Proof.
  assert (Hr : HrefMappings.reachable (mappings Mem.calendar))
    by apply HrefMappings.reach_load.
  split; [exact Hr|].
  apply (X10_delete_after_upload_names_the_same_uid
           (B := Mem.storage) "renamed.ics" (Mem.mkCard "b" "BEGIN:VCALENDAR")
           (Mem.mkCard "b" "BEGIN:VCALENDAR") Mem.calendar Hr eq_refl).
  left. vm_compute. discriminate.
Defined.

Lemma X11_upsert_on_unknown_sync_type_raises_witness :
  let w := mkWorld "tasks" "home" (Mem.mkFiles [] [])
             (HrefMappings.load_hrefs "tasks" HrefMappings.Unreadable) [] in
  resources_listener ["t1"] "2026-01-01T00:00:00" PNone (PStr "BEGIN:VTODO") w
  = Raise (RuntimeError "Unknown sync type tasks") w.
Proof.
  apply (X11_upsert_on_unknown_sync_type_raises (B := Mem.storage)
           "t1" "2026-01-01T00:00:00" PNone (PStr "BEGIN:VTODO")
           (Mem.mkCard "" "BEGIN:VTODO"));
    [discriminate | reflexivity | simpl; discriminate | simpl; discriminate].
Defined.

End BridgeMore.

(* ================================================================= *)
(** ** Paths and names *)

Module PathFacts.
Import PyStr.

Lemma app_empty_r (s : string) : s ++ "" = s.
Proof. induction s as [|a s IH]; simpl; [reflexivity | now rewrite IH]. Qed.

Lemma app_assoc_str (s t u : string) : (s ++ t) ++ u = s ++ t ++ u.
Proof. induction s as [|a s IH]; simpl; [reflexivity | now rewrite IH]. Qed.

Lemma substring_all (s : string) : substring 0 (String.length s) s = s.
Proof. induction s as [|a s IH]; simpl; [reflexivity | now rewrite IH]. Qed.

(** What [lstrip] leaves does not start with the stripped character. *)
Lemma lstrip_head (c : ascii) (s : string) :
  lstrip c s = "" \/ exists a t, lstrip c s = String a t /\ a <> c.
Proof.
  induction s as [|a s IH]; simpl; [now left|].
  destruct (Ascii.eqb_spec a c) as [->|Hne]; [exact IH|].
  right. now exists a, s.
Qed.

(** [rstrip] keeps a first character that is not the stripped one. *)
Lemma rstrip_head (c a : ascii) (t : string) :
  a <> c -> exists t', rstrip c (String a t) = String a t'.
Proof.
  intros Hne. simpl. destruct (rstrip c t) as [|b r].
  - destruct (Ascii.eqb_spec a c); [contradiction | now exists ""].
  - now exists (String b r).
Qed.

Lemma strip_head (c : ascii) (s : string) :
  strip c s = "" \/ exists a t, strip c s = String a t /\ a <> c.
Proof.
  unfold strip. destruct (lstrip_head c s) as [-> | (a & t & -> & Hne)].
  - now left.
  - right. destruct (rstrip_head c a t Hne) as [t' Ht']. now exists a, t'.
Qed.

Lemma split_not_nil (c : ascii) (s : string) : split c s <> [].
Proof.
  induction s as [|a s IH]; simpl; [discriminate|].
  destruct (Ascii.eqb a c); [discriminate|].
  destruct (split c s); [contradiction | discriminate].
Qed.

(** A string that starts with another character splits into a non-empty
    first part. *)
Lemma split_head (c a : ascii) (t : string) :
  a <> c -> hd "" (split c (String a t)) <> "".
Proof.
  intros Hne. simpl. destruct (Ascii.eqb_spec a c); [contradiction|].
  destruct (split c t); simpl; discriminate.
Qed.

(** [c.join(s.split(c)) == s] *)
Lemma join_split (c : ascii) (s : string) :
  join (String c "") (split c s) = s.
Proof.
  induction s as [|a s IH]; simpl; [reflexivity|].
  destruct (Ascii.eqb_spec a c) as [->|Hne].
  - pose proof (split_not_nil c s) as Hnil.
    destruct (split c s) as [|w ws]; [contradiction|].
    simpl in *. now rewrite IH.
  - pose proof (split_not_nil c s) as Hnil.
    destruct (split c s) as [|w ws]; [contradiction|].
    destruct ws as [|w' ws]; simpl in *; now rewrite <- IH.
Qed.

Section Facts.
Context {H : Host}.
Import Lifecycle.

(** X14: the attributes of a path are the segments of the sanitized path
    without its outer slashes.  The list is empty when nothing but slashes
    is left; otherwise the first attribute is not empty, so the [pop] of
    [_get_attributes_from_path] never drops a segment, and joining the
    attributes with slashes gives the stripped path back. *)
Theorem X14_attributes_are_the_segments (path : string) :
  let sane_path := strip "/" (sanitize_path path) in
  (sane_path = "" -> _get_attributes_from_path path = []) /\
  (sane_path <> "" ->
   _get_attributes_from_path path = split "/" sane_path /\
   hd "" (_get_attributes_from_path path) <> "" /\
   join "/" (_get_attributes_from_path path) = sane_path).
Proof.
  intros sane_path. unfold _get_attributes_from_path. fold sane_path.
  split.
  - intros ->. reflexivity.
  - intros Hne.
    destruct (strip_head "/" (sanitize_path path)) as [Hempty | (a & t & Hs & Ha)];
      [contradiction|].
    fold sane_path in Hs.
    pose proof (split_head "/" a t Ha) as Hhd. rewrite <- Hs in Hhd.
    destruct (String.eqb_spec (hd "" (split "/" sane_path)) ""); [contradiction|].
    repeat split; [exact Hhd | apply join_split].
Qed.

(** [attributes[-1] = prefix + attributes[-1]] on a list that has a last
    element. *)
Lemma prefix_last_snoc (prefix last : string) (front : list string) :
  prefix_last prefix (front ++ [last])%list
  = inr (front ++ [(prefix ++ last)%string])%list.
Proof.
  unfold prefix_last. rewrite rev_app_distr. simpl. now rewrite rev_involutive.
Qed.

(** X13: [create_collection] with a recognised tag keeps every attribute of
    the path but the last, which it prefixes with the sync type of the tag
    and a dash, and hands the joined path to the base class; on a path
    without attributes (the root) it raises [IndexError]. *)
Theorem X13_create_collection_prefixes_last_attribute
    (href : string) (items : option ItemList) (props : PyDict.t pyval)
    (sync_type : string) :
  (tag_of props = PStr "VADDRESSBOOK" /\ sync_type = "contacts") \/
  (tag_of props = PStr "VCALENDAR" /\ sync_type = "calendars") ->
  (_get_attributes_from_path href = [] ->
   create_collection href items (Some props) = inl IndexError) /\
  (forall front last,
      _get_attributes_from_path href = (front ++ [last])%list ->
      create_collection href items (Some props)
      = base_create_collection
          (join "/" (front ++ [(sync_type ++ "-" ++ last)%string])%list)
          items (Some props)).
Proof.
  intros Htag.
  assert (Hst : sync_type_of_tag (tag_of props) = inr sync_type).
  { destruct Htag as [[-> ->] | [-> ->]]; reflexivity. }
  unfold create_collection. rewrite Hst. split.
  - intros ->. reflexivity.
  - intros front last ->. now rewrite prefix_last_snoc, app_assoc_str.
Qed.

End Facts.

Lemma X14_attributes_are_the_segments_witness :
  Lifecycle._get_attributes_from_path "/" = [] /\
  Lifecycle._get_attributes_from_path "/user/contacts-friends/"
  = ["user"; "contacts-friends"].
Proof.
  destruct (X14_attributes_are_the_segments (H := Mem.host) "/") as [Hroot _].
  destruct (X14_attributes_are_the_segments (H := Mem.host)
              "/user/contacts-friends/") as [_ Hsegs].
  split.
  - apply Hroot. reflexivity.
  - destruct Hsegs as (Hsplit & _ & _); [discriminate|].
    rewrite Hsplit. reflexivity.
Defined.

Lemma X13_create_collection_prefixes_last_attribute_witness :
  Lifecycle.create_collection "/" None (Some [("tag", PStr "VCALENDAR")])
  = inl IndexError /\
  Lifecycle.create_collection "/user/work" None (Some [("tag", PStr "VCALENDAR")])
  = inr "user/calendars-work".
Proof.
  destruct (X13_create_collection_prefixes_last_attribute (H := Mem.host)
              "/" None [("tag", PStr "VCALENDAR")] "calendars") as [Hroot _];
    [right; split; reflexivity|].
  destruct (X13_create_collection_prefixes_last_attribute (H := Mem.host)
              "/user/work" None [("tag", PStr "VCALENDAR")] "calendars")
    as [_ Hlast]; [right; split; reflexivity|].
  split.
  - apply Hroot. reflexivity.
  - etransitivity; [apply (Hlast ["user"] "work" eq_refl) | reflexivity].
Defined.

(** X12: [__init__] reads back what [create_collection] and [discover]
    put into the name of a collection: from the attributes
    [[user, sync_type + "-" + name]] it takes [sync_type] as the sync type
    and [name], dashes included, as the collection, and loads the tables
    with the suffix of that sync type. *)
Theorem X12_init_reads_back_the_name {B : BaseStorage}
    (sync_type name user : string) (files : Store)
    (f : HrefMappings.hrefs_file) :
  sync_type = "contacts" \/ sync_type = "calendars" ->
  Bridge.init [user; sync_type ++ "-" ++ name] files f
  = Some (Bridge.mkWorld sync_type name files
            (HrefMappings.load_hrefs sync_type f) []).
Proof.
  intros [-> | ->]; unfold Bridge.init; simpl;
    unfold slice_from; simpl; now rewrite Nat.sub_0_r, substring_all.
Qed.

Lemma X12_init_reads_back_the_name_witness :
  Bridge.init ["user"; "contacts-my-friends"] (Mem.mkFiles [] [])
              HrefMappings.Unreadable
  = Some (Bridge.mkWorld "contacts" "my-friends" (Mem.mkFiles [] [])
            (HrefMappings.load_hrefs "contacts" HrefMappings.Unreadable) []).
Proof.
  apply (X12_init_reads_back_the_name (B := Mem.storage)
           "contacts" "my-friends" "user").
  now left.
Defined.

End PathFacts.

(* ================================================================= *)
(** ** What discovery creates *)

Module DiscoverFacts.
Import Lifecycle Shape.

Section Facts.
Context {H : Host}.

Lemma child_blocks_app (evs evs' : list disc_event) :
  child_blocks evs -> child_blocks evs' -> child_blocks (evs ++ evs')%list.
Proof.
  induction 1 as [|st c p props child rest _ IH]; intros Hevs'; [exact Hevs'|].
  rewrite <- app_assoc. constructor. now apply IH.
Qed.

(** A turn of the inner loop adds nothing or one whole block, for its own
    remote collection. *)
Lemma discover_collection_cases
    (path sync_type collection : string) (known_paths : list string) :
  let r := discover_collection path sync_type collection known_paths in
  let child_path := child_path_of path sync_type collection in
  (fst r = [] /\
   (snd r = None ->
    known child_path known_paths = true \/
    marked_deleted sync_type collection = true)) \/
  (exists props child,
      r = (child_block sync_type collection child_path props child, None) /\
      known child_path known_paths = false /\
      marked_deleted sync_type collection = false /\
      child_props sync_type = inr props /\
      base_create_collection child_path None (Some props) = inr child).
Proof.
  unfold discover_collection, child_path_of, known.
  destruct (existsb _ known_paths); [left; auto|].
  destruct (marked_deleted sync_type collection); [left; auto|].
  destruct (child_props sync_type) as [e | props];
    [left; split; [reflexivity | discriminate]|].
  destruct (base_create_collection _ None (Some props)) as [e | child] eqn:Hc;
    [left; split; [reflexivity | discriminate]|].
  right. exists props, child. auto.
Qed.

Lemma discover_collection_blocks
    (path sync_type collection : string) (known_paths : list string) :
  child_blocks (fst (discover_collection path sync_type collection known_paths)).
Proof.
  destruct (discover_collection_cases path sync_type collection known_paths)
    as [[-> _] | (props & child & -> & _)]; [constructor|].
  apply (blocks_cons _ _ _ _ _ []). constructor.
Qed.

Lemma discover_collections_blocks
    (path sync_type : string) (known_paths remote : list string) :
  child_blocks (fst (discover_collections path sync_type known_paths remote)).
Proof.
  induction remote as [|c rest IH]; simpl; [constructor|].
  pose proof (discover_collection_blocks path sync_type c known_paths) as Hone.
  destruct (discover_collection path sync_type c known_paths) as [evs [e|]];
    simpl in *; [exact Hone | now apply child_blocks_app].
Qed.

Lemma discover_sync_types_blocks
    (path : string) (known_paths sync_types : list string) :
  child_blocks (fst (discover_sync_types path known_paths sync_types)).
Proof.
  induction sync_types as [|st rest IH]; simpl; [constructor|].
  pose proof (discover_collections_blocks path st known_paths
                (list_collections st)) as Hone.
  destruct (discover_collections path st known_paths (list_collections st))
    as [evs [e|]]; simpl in *; [exact Hone | now apply child_blocks_app].
Qed.

(** X15: a run of [discover] first yields the collections of the base
    class, in the order the base class gave them, and after them only
    whole blocks for new children: creation, [init_stored_entries], replay
    of the info entries, replay of the resources entries, yield. *)
Theorem X15_discover_yields_locals_then_child_blocks
    (path depth : string) (collections : list Coll) :
  base_discover path depth = inr collections ->
  exists rest,
    fst (discover path depth) = (map YieldLocal collections ++ rest)%list /\
    child_blocks rest.
Proof.
  intros Hbase. unfold discover. rewrite Hbase.
  destruct (String.eqb depth "0").
  { exists []. rewrite app_nil_r. split; [reflexivity | constructor]. }
  destruct (List.length (_get_attributes_from_path path)) as [|[|[|n]]];
    cbn [fst];
    try (exists []; rewrite app_nil_r; split; [reflexivity | constructor]).
  eexists. split; [reflexivity | apply discover_sync_types_blocks].
Qed.

(** *** Every child has a reason *)

Lemma discover_collections_sound
    (path sync_type : string) (known_paths remote : list string)
    (st c p : string) (props : PyDict.t pyval) (child : Coll) :
  In (Materialize st c p props child)
     (fst (discover_collections path sync_type known_paths remote)) ->
  st = sync_type /\ In c remote /\
  p = child_path_of path st c /\
  known p known_paths = false /\
  marked_deleted st c = false /\
  child_props st = inr props /\
  base_create_collection p None (Some props) = inr child.
Proof.
  induction remote as [|c0 rest IH]; simpl; [intros []|].
  destruct (discover_collection_cases path sync_type c0 known_paths)
    as [[Hnil _] | (props0 & child0 & Hr & Hk & Hd & Hp & Hc)].
  - destruct (discover_collection path sync_type c0 known_paths)
      as [evs [e|]]; simpl in *; subst evs; [intros []|].
    intros Hin. apply IH in Hin. tauto.
  - rewrite Hr. cbn [fst snd]. intros Hin.
    apply in_app_or in Hin as [Hin | Hin]; [|apply IH in Hin; tauto].
    destruct Hin as [Heq | [Heq | [Heq | [Heq | [Heq | []]]]]];
      try discriminate.
    injection Heq as <- <- <- <- <-. auto 10.
Qed.

Lemma discover_sync_types_sound
    (path : string) (known_paths sync_types : list string)
    (st c p : string) (props : PyDict.t pyval) (child : Coll) :
  In (Materialize st c p props child)
     (fst (discover_sync_types path known_paths sync_types)) ->
  In st sync_types /\ In c (list_collections st) /\
  p = child_path_of path st c /\
  known p known_paths = false /\
  marked_deleted st c = false /\
  child_props st = inr props /\
  base_create_collection p None (Some props) = inr child.
Proof.
  induction sync_types as [|st0 rest IH]; simpl; [intros []|].
  pose proof (discover_collections_sound path st0 known_paths
                (list_collections st0) st c p props child) as Hone.
  destruct (discover_collections path st0 known_paths (list_collections st0))
    as [evs [e|]]; cbn [fst snd] in *.
  - intros Hin. destruct (Hone Hin) as (-> & Hrest). auto.
  - intros Hin. apply in_app_or in Hin as [Hin | Hin].
    + destruct (Hone Hin) as (-> & Hrest). auto.
    + apply IH in Hin. tauto.
Qed.

(** X16: a child is created only on a request that asks for more than
    depth ["0"] on a path of one attribute, only for a collection the sync
    log lists under ["contacts"] or ["calendars"], whose path
    [path/sync_type-collection] (sanitized, outer slashes stripped) is not
    the path of a collection the base class returned and which is not
    marked deleted; it is created at that path with the tag of its sync
    type, by the base class. *)
Theorem X16_discover_creates_only_advertised_unknown_collections
    (path depth st c p : string) (props : PyDict.t pyval) (child : Coll) :
  In (Materialize st c p props child) (fst (discover path depth)) ->
  exists collections,
    base_discover path depth = inr collections /\
    depth <> "0" /\
    List.length (_get_attributes_from_path path) = 1 /\
    (st = "contacts" \/ st = "calendars") /\
    In c (list_collections st) /\
    p = child_path_of path st c /\
    known p (map coll_path collections) = false /\
    marked_deleted st c = false /\
    child_props st = inr props /\
    base_create_collection p None (Some props) = inr child.
Proof.
  unfold discover.
  destruct (base_discover path depth) as [e | cs]; [intros []|].
  assert (Hlocal : ~ In (Materialize st c p props child) (map YieldLocal cs)).
  { intros Hin. apply in_map_iff in Hin as (x & Hx & _). discriminate. }
  destruct (String.eqb_spec depth "0") as [->|Hdepth]; [intros Hin; tauto|].
  destruct (List.length (_get_attributes_from_path path)) as [|[|[|n]]];
    cbn [fst]; try (intros Hin; tauto).
  intros Hin. apply in_app_or in Hin as [Hin | Hin]; [tauto|].
  apply discover_sync_types_sound in Hin
    as (Hst & Hc & Hp & Hk & Hd & Hprops & Hcreate).
  exists cs. repeat split; auto.
  destruct Hst as [<- | [<- | []]]; auto.
Qed.

(** *** Every advertised collection gets its child *)

Lemma discover_collections_complete
    (path sync_type : string) (known_paths remote : list string) (c : string) :
  snd (discover_collections path sync_type known_paths remote) = None ->
  In c remote ->
  known (child_path_of path sync_type c) known_paths = false ->
  marked_deleted sync_type c = false ->
  exists props child,
    incl (child_block sync_type c (child_path_of path sync_type c) props child)
         (fst (discover_collections path sync_type known_paths remote)).
Proof.
  induction remote as [|c0 rest IH]; simpl; [intros _ []|].
  destruct (discover_collection_cases path sync_type c0 known_paths)
    as [[Hnil Hwhy] | (props0 & child0 & Hr & _)].
  - destruct (discover_collection path sync_type c0 known_paths)
      as [evs [e|]]; cbn [fst snd] in *; [discriminate|].
    subst evs. intros Hnone [<- | Hin] Hk Hd.
    + destruct (Hwhy eq_refl); congruence.
    + now apply IH.
  - rewrite Hr. cbn [fst snd]. intros Hnone [<- | Hin] Hk Hd.
    + exists props0, child0. now apply incl_appl, incl_refl.
    + destruct (IH Hnone Hin Hk Hd) as (props & child & Hincl).
      exists props, child. now apply incl_appr.
Qed.

Lemma discover_sync_types_complete
    (path : string) (known_paths sync_types : list string) (st c : string) :
  snd (discover_sync_types path known_paths sync_types) = None ->
  In st sync_types ->
  In c (list_collections st) ->
  known (child_path_of path st c) known_paths = false ->
  marked_deleted st c = false ->
  exists props child,
    incl (child_block st c (child_path_of path st c) props child)
         (fst (discover_sync_types path known_paths sync_types)).
Proof.
  induction sync_types as [|st0 rest IH]; simpl; [intros _ []|].
  pose proof (discover_collections_complete path st0 known_paths
                (list_collections st0) c) as Hone.
  destruct (discover_collections path st0 known_paths (list_collections st0))
    as [evs [e|]]; cbn [fst snd] in *; [discriminate|].
  intros Hnone [<- | Hin] Hc Hk Hd.
  - destruct (Hone eq_refl Hc Hk Hd) as (props & child & Hincl).
    exists props, child. now apply incl_appl.
  - destruct (IH Hnone Hin Hc Hk Hd) as (props & child & Hincl).
    exists props, child. now apply incl_appr.
Qed.

(** X17: a run of [discover] that ends without an exception, at a depth
    other than ["0"] on a path of one attribute, has created, primed and
    yielded a child for every collection the sync log lists under
    ["contacts"] or ["calendars"] that is not marked deleted and whose
    path the base class did not return. *)
Theorem X17_discover_creates_every_advertised_unknown_collection
    (path depth st c : string) (collections : list Coll) :
  base_discover path depth = inr collections ->
  snd (discover path depth) = None ->
  depth <> "0" ->
  List.length (_get_attributes_from_path path) = 1 ->
  st = "contacts" \/ st = "calendars" ->
  In c (list_collections st) ->
  known (child_path_of path st c) (map coll_path collections) = false ->
  marked_deleted st c = false ->
  exists props child,
    incl (child_block st c (child_path_of path st c) props child)
         (fst (discover path depth)) /\
    In child (yielded (fst (discover path depth))).
Proof.
  unfold discover. intros Hbase. rewrite Hbase.
  destruct (String.eqb_spec depth "0") as [->|_]; [intros _ Hd; now destruct Hd|].
  intros Hnone _ Hlen Hst Hc Hk Hd. rewrite Hlen in *. cbn [fst snd] in *.
  destruct (discover_sync_types_complete path (map coll_path collections)
              ["contacts"; "calendars"] st c Hnone) as (props & child & Hincl);
    auto.
  { destruct Hst as [-> | ->]; simpl; auto. }
  exists props, child.
  assert (Hall : incl (child_block st c (child_path_of path st c) props child)
                      (map YieldLocal collections ++
                       fst (discover_sync_types path (map coll_path collections)
                              ["contacts"; "calendars"]))%list)
    by now apply incl_appr.
  split; [exact Hall|].
  unfold yielded. apply in_flat_map.
  exists (YieldChild st c child). split; [|now left].
  apply Hall. simpl. tauto.
Qed.

End Facts.

Lemma X15_discover_yields_locals_then_child_blocks_witness :
  exists rest,
    fst (discover "/user" "1")
    = (map YieldLocal ["user/calendars-work"] ++ rest)%list /\
    child_blocks rest.
Proof.
  apply (X15_discover_yields_locals_then_child_blocks (H := Mem.host)
           "/user" "1" ["user/calendars-work"]).
  reflexivity.
Defined.

Lemma X16_discover_creates_only_advertised_unknown_collections_witness :
  In (Materialize "contacts" "friends" "user/contacts-friends"
        [("tag", PStr "VADDRESSBOOK")] "user/contacts-friends")
     (fst (discover "/user" "1")) /\
  In "friends" (list_collections "contacts") /\
  marked_deleted "contacts" "friends" = false.
Proof.
  assert (Hin : In (Materialize "contacts" "friends" "user/contacts-friends"
                      [("tag", PStr "VADDRESSBOOK")] "user/contacts-friends")
                   (fst (discover (H := Mem.host) "/user" "1"))).
  { simpl. tauto. }
  split; [exact Hin|].
  destruct (X16_discover_creates_only_advertised_unknown_collections
              (H := Mem.host) _ _ _ _ _ _ _ Hin)
    as (cs & _ & _ & _ & _ & Hadv & _ & _ & Hdel & _).
  split; [exact Hadv | exact Hdel].
Defined.

Lemma X17_discover_creates_every_advertised_unknown_collection_witness :
  exists props child,
    incl (child_block "contacts" "friends"
            (child_path_of "/user" "contacts" "friends") props child)
         (fst (discover "/user" "1")) /\
    In child (yielded (fst (discover "/user" "1"))).
Proof.
  apply (X17_discover_creates_every_advertised_unknown_collection
           (H := Mem.host) "/user" "1" "contacts" "friends"
           ["user/calendars-work"]);
    try reflexivity.
  - discriminate.
  - now left.
  - simpl. tauto.
Defined.

End DiscoverFacts.
